(** * Smart Proctoring System: audit ledger, proctoring event handling,
      throttling, attempt status and behavioural buffers.

    The development follows the repository module by module:
    - [Js]: counts as JavaScript numbers;
    - [Ledger]: the hash-chained audit log (blockchain_logs) with its
      bootstrap, append and verification operations;
    - [Schema]: the [attempt_status] enumeration of the database schema;
    - [Classifier]: the static severity table of [utils/constants.js];
    - [FaceMonitor]: the event throttle of [FaceMonitor.jsx];
    - [ExamSession]: [handleProctoringEvent] and [autoTerminate] of
      [ExamSessionPage.jsx];
    - [AdvancedProctoring]: the keystroke and mouse buffers of
      [advancedProctoring.js].

    Two source files are cited by their names in the repository:
    [schema.sql] is the database schema (src/unnamed/part_002) and
    [ExamSessionPage.jsx] the exam page (src/unnamed/part_004);
    [MANUAL_SETUP.sql] is backend/old_flask_backup/database/MANUAL_SETUP.sql.

    JavaScript numbers are modelled by binary64 floats where the code does
    arithmetic on them, and by [Z] where they are integer clock readings
    that are only subtracted and compared. *)

From Stdlib Require Import ZArith Floats.
From stdpp Require Import base tactics option list relations strings gmap pretty.

Local Open Scope Z_scope.

(** Decimal literals such as 0.9 stand for the nearest binary64 value, as
    they do in JavaScript. *)
#[local] Set Warnings "-inexact-float".

(* ===================================================================== *)
(** * JavaScript numbers *)
(* ===================================================================== *)

Module Js.

(** A count (an array length, a number of faces) as a JavaScript number. *)
Definition float_of_nat (n : nat) : float :=
  Z.iter (Z.of_nat n) (fun x => (x + 1)%float) 0%float.

End Js.

(* ===================================================================== *)
(** * The hash-chained ledger *)
(* ===================================================================== *)

Module Ledger.

(** A hash is the text stored in a [VARCHAR] column. *)
Abbreviation Hash := string.

(** The payload is a JSON object; its fields are kept in the order in
    which they were written. *)
Abbreviation Payload := (list (string * string)).

(** One row of [blockchain_logs] (MANUAL_SETUP.sql, lines 126-135), with
    the [sequence_number] of the data model ([block_index] in schema.sql,
    line 177). *)
Record Block : Type := mkBlock {
  sequence_number : Z;
  previous_hash : option Hash;
  current_hash : Hash;
  event_type : string;
  entity_type : string;
  entity_id : option string;
  payload : Payload;
  created_at : Z
}.

#[global] Instance Block_eq_dec : EqDecision Block.
Proof. solve_decision. Defined.

(** The ledger is the table content in insertion order. *)
Abbreviation Ledger := (list Block).

(** The well-known hash of the genesis row (MANUAL_SETUP.sql, line 235). *)
Definition GENESIS_HASH : Hash :=
  "genesis_block_hash_0000000000000000000000000000000000000000000000000".

(** The payload of the genesis row (MANUAL_SETUP.sql, line 239). *)
Definition GENESIS_PAYLOAD : Payload :=
  [("system", "Smart Proctoring System");
   ("version", "1.0");
   ("description", "Blockchain audit trail initialized")].

(** The genesis row inserted by MANUAL_SETUP.sql (lines 225-240):
    [previous_hash] NULL, the constant hash, [event_type] 'system_init',
    [entity_type] 'system', [entity_id] NULL; [sequence_number] 0 as the
    data model requires; [created_at] is the time of the insert. *)
Definition genesis (now : Z) : Block :=
  {| sequence_number := 0;
     previous_hash := None;
     current_hash := GENESIS_HASH;
     event_type := "system_init";
     entity_type := "system";
     entity_id := None;
     payload := GENESIS_PAYLOAD;
     created_at := now |}.

(** Modelled from the spec: the backend handler of
    [POST /blockchain/initialize] (called by [initializeGenesis] in
    blockchainService.js) is not among the sources.  The ledger is
    bootstrapped once with the sentinel block; bootstrapping a ledger that
    already holds blocks is a no-op, not an error. *)
Definition initialize (now : Z) (l : Ledger) : Ledger :=
  match l with
  | [] => [genesis now]
  | _ :: _ => l
  end.

(** The fields a block's hash commits to, the payload in canonical form. *)
Record Preimage : Type := mkPreimage {
  p_sequence_number : Z;
  p_previous_hash : option Hash;
  p_event_type : string;
  p_entity_type : string;
  p_entity_id : option string;
  p_payload : string;
  p_created_at : Z
}.

(** What a caller hands to [append]. *)
Record AppendArgs : Type := mkArgs {
  a_event_type : string;
  a_entity_type : string;
  a_entity_id : option string;
  a_payload : Payload
}.

Inductive AppendError : Type :=
  | SerializationError
  | ConflictError.

Inductive MismatchKind : Type :=
  | HashMismatch
  | PreviousHashMismatch
  | SequenceMismatch.

#[global] Instance MismatchKind_eq_dec : EqDecision MismatchKind.
Proof. solve_decision. Defined.

Record VerifyError : Type := mkError {
  err_sequence : Z;
  err_kind : MismatchKind
}.

#[global] Instance VerifyError_eq_dec : EqDecision VerifyError.
Proof. solve_decision. Defined.

Record VerificationResult : Type := mkResult {
  is_valid : bool;
  blocks_checked : nat;
  errors : list VerifyError
}.

(** Modelled from the spec: the read of "the current highest
    [sequence_number] and its [current_hash]" in the backend [append],
    which is not among the sources; the later row on a tie. *)
Fixpoint highest (l : Ledger) : option Block :=
  match l with
  | [] => None
  | b :: rest =>
      match highest rest with
      | None => Some b
      | Some h =>
          if decide (sequence_number h < sequence_number b) then Some b else Some h
      end
  end.

(** Modelled from the spec: the verifier, which is not among the sources,
    streams the rows in ascending [sequence_number]; here by a stable
    insertion sort of the table content. *)
Fixpoint insert_block (b : Block) (l : list Block) : list Block :=
  match l with
  | [] => [b]
  | x :: rest =>
      if decide (sequence_number b <= sequence_number x)
      then b :: x :: rest
      else x :: insert_block b rest
  end.

Definition ascending (l : Ledger) : list Block := foldr insert_block [] l.



Section WithDigest.

(** The digest (utils/blockchain_hasher.py, SHA-256) and the canonical
    serialization of a payload are not among the sources; they are
    parameters of the ledger. *)
Variable digest : Preimage -> Hash.
Variable canonical : Payload -> option string.

(** Modelled from the spec: the hash of a block is the digest over its
    sequence number, previous hash, event type, entity type, entity id,
    canonical payload and creation time (the hashing code is not among
    the sources); [None] when the stored payload has no canonical form. *)
Definition expected_hash (b : Block) : option Hash :=
  c ← canonical (payload b);
  Some (digest {| p_sequence_number := sequence_number b;
                  p_previous_hash := previous_hash b;
                  p_event_type := event_type b;
                  p_entity_type := entity_type b;
                  p_entity_id := entity_id b;
                  p_payload := c;
                  p_created_at := created_at b |}).

(** Modelled from the spec: the backend [append] (blockchain_service.py)
    is not among the sources.  Reading step of [append]: from a snapshot
    of the ledger take the highest sequence number and its hash (the
    genesis sentinel hash on an empty ledger), assign the next sequence
    number and compute the hash of the new block. *)
Definition prepare (snapshot : Ledger) (args : AppendArgs) (now : Z)
    : AppendError + Block :=
  match canonical (a_payload args) with
  | None => inl SerializationError
  | Some c =>
      let seq := match highest snapshot with
                 | Some h => sequence_number h + 1
                 | None => 0
                 end in
      let prev := match highest snapshot with
                  | Some h => current_hash h
                  | None => GENESIS_HASH
                  end in
      inr {| sequence_number := seq;
             previous_hash := Some prev;
             current_hash :=
               digest {| p_sequence_number := seq;
                         p_previous_hash := Some prev;
                         p_event_type := a_event_type args;
                         p_entity_type := a_entity_type args;
                         p_entity_id := a_entity_id args;
                         p_payload := c;
                         p_created_at := now |};
             event_type := a_event_type args;
             entity_type := a_entity_type args;
             entity_id := a_entity_id args;
             payload := a_payload args;
             created_at := now |}
  end.

(** Modelled from the spec: the atomic commit step of [append].  The
    insert is refused with [ConflictError] when the slot is taken: the
    table keeps [sequence_number] and [current_hash] unique
    (schema.sql line 177, MANUAL_SETUP.sql line 129). *)
Definition slot_taken (l : Ledger) (b : Block) : bool :=
  existsb (fun x => bool_decide (sequence_number x = sequence_number b)
                    || bool_decide (current_hash x = current_hash b)) l.

Definition commit (l : Ledger) (b : Block) : AppendError + Ledger :=
  if slot_taken l b then inl ConflictError else inr (l ++ [b]).

(** Modelled from the spec: an append (the backend [append] is not among
    the sources) that read the snapshot [s] and commits on the ledger
    [l]; a writer that lost no race has [s = l]. *)
Definition append_from (s l : Ledger) (args : AppendArgs) (now : Z)
    : AppendError + Ledger :=
  match prepare s args now with
  | inl e => inl e
  | inr b => commit l b
  end.

Definition append (l : Ledger) (args : AppendArgs) (now : Z)
    : AppendError + Ledger :=
  append_from l l args now.

(** The ledger after an append attempt: a failed append persists nothing. *)
Definition after (l : Ledger) (r : AppendError + Ledger) : Ledger :=
  match r with
  | inl _ => l
  | inr l' => l'
  end.

(** Modelled from the spec: one operation on the ledger, a bootstrap or
    an append (neither backend operation is among the sources).  A
    writer's snapshot is an earlier state of the ledger, and the caller
    supplies a non-empty [event_type]. *)
Inductive step : Ledger -> Ledger -> Prop :=
  | step_initialize now l :
      step l (initialize now l)
  | step_append s l args now :
      s `prefix_of` l ->
      a_event_type args <> "" ->
      step l (after l (append_from s l args now)).

(** The states of a ledger that was bootstrapped and then operated on. *)
Definition reachable (l : Ledger) : Prop :=
  exists now, rtc step (initialize now []) l.

(** Modelled from the spec: the backend verifier (blockchain_service.py,
    [GET /blockchain/verify]) is not among the sources.  For each
    streamed block after the first: the hash recomputed from the stored
    fields must equal the stored [current_hash], the stored
    [previous_hash] must equal the prior block's [current_hash], and the
    [sequence_number] must be one more than the prior block's.  Every
    mismatch is recorded with the block's sequence number and its kind. *)
Definition check_block (prior b : Block) : list VerifyError :=
  (if decide (expected_hash b = Some (current_hash b)) then []
   else [mkError (sequence_number b) HashMismatch])
  ++ (if decide (previous_hash b = Some (current_hash prior)) then []
      else [mkError (sequence_number b) PreviousHashMismatch])
  ++ (if decide (sequence_number b = sequence_number prior + 1) then []
      else [mkError (sequence_number b) SequenceMismatch]).

(** Modelled from the spec: the walk of the verifier, which is not among
    the sources; it goes on after a mismatch. *)
Fixpoint scan (prior : Block) (rest : list Block) : list VerifyError :=
  match rest with
  | [] => []
  | b :: rest' => check_block prior b ++ scan b rest'
  end.

Definition scan_stream (s : list Block) : list VerifyError :=
  match s with
  | [] => []
  | b0 :: rest => scan b0 rest
  end.

(** Modelled from the spec: the range of [verify(from_sequence, limit)],
    which is not among the sources: the blocks from [from_sequence] on,
    at most [limit] of them. *)
Definition stream (from_sequence : Z) (limit : option nat) (l : Ledger)
    : list Block :=
  let s := filter (fun b => from_sequence <= sequence_number b) (ascending l) in
  match limit with
  | Some n => take n s
  | None => s
  end.

(** Modelled from the spec: the block before the range, the last one
    below [from_sequence] in ascending order, against which the first
    block of the range is checked; a range that starts at the first block
    of the ledger has none. *)
Definition prior_of (from_sequence : Z) (l : Ledger) : option Block :=
  last (filter (fun b => sequence_number b < from_sequence) (ascending l)).

(** Modelled from the spec: [verify(from_sequence, limit)], which is not
    among the sources.  Every block of the range other than the first
    block of the ledger is checked against the block before it. *)
Definition verify_range (from_sequence : Z) (limit : option nat) (l : Ledger)
    : VerificationResult :=
  let s := stream from_sequence limit l in
  let errs := match prior_of from_sequence l with
              | Some prior => scan prior s
              | None => scan_stream s
              end in
  {| is_valid := bool_decide (errs = []);
     blocks_checked := length s;
     errors := errs |}.

(** Modelled from the spec: [verify()] with its defaults, from sequence
    0 and with no limit (the backend verifier is not among the sources). *)
Definition verify (l : Ledger) : VerificationResult :=
  verify_range 0 None l.


(** The three parts of the chain invariant. *)
Definition gapless (l : Ledger) : Prop :=
  forall i b, l !! i = Some b -> sequence_number b = Z.of_nat i.

Definition linked (l : Ledger) : Prop :=
  forall i p b, l !! i = Some p -> l !! S i = Some b ->
    previous_hash b = Some (current_hash p).

Definition hashed (l : Ledger) : Prop :=
  forall i b, l !! S i = Some b -> expected_hash b = Some (current_hash b).

Definition bootstrapped (l : Ledger) : Prop :=
  exists now, l !! 0%nat = Some (genesis now).

Definition chain_ok (l : Ledger) : Prop :=
  bootstrapped l /\ gapless l /\ linked l /\ hashed l.

End WithDigest.

(** A transparent stand-in for the digest and the canonical form, to run
    the ledger on concrete chains. *)
Definition demo_canonical (p : Payload) : option string :=
  Some (foldr (fun kv acc => kv.1 +:+ "=" +:+ kv.2 +:+ ";" +:+ acc) "" p).

Definition demo_digest (p : Preimage) : Hash :=
  pretty (p_sequence_number p)
  +:+ "|" +:+ default "null" (p_previous_hash p)
  +:+ "|" +:+ p_event_type p
  +:+ "|" +:+ p_entity_type p
  +:+ "|" +:+ default "null" (p_entity_id p)
  +:+ "|" +:+ p_payload p
  +:+ "|" +:+ pretty (p_created_at p).

Definition demo_args (ev : string) : AppendArgs :=
  {| a_event_type := ev;
     a_entity_type := "attempt";
     a_entity_id := Some "a1";
     a_payload := [("confidence", "0.9")] |}.

(** Genesis, then a [tab_switch] and a [no_face] event. *)
Definition demo_chain : Ledger :=
  let l0 := initialize 1000 [] in
  let l1 := after l0 (append demo_digest demo_canonical l0 (demo_args "tab_switch") 1001) in
  after l1 (append demo_digest demo_canonical l1 (demo_args "no_face") 1002).


(** ** Bootstrap *)

Lemma initialize_nonempty now l : initialize now l <> [].
Proof. destruct l; discriminate. Qed.

Lemma initialize_prefix now l : l `prefix_of` initialize now l.
Proof. destruct l; [apply prefix_nil | reflexivity]. Qed.

(** ** The chain invariant *)

Lemma highest_snoc l b :
  Forall (fun x => sequence_number x < sequence_number b) l ->
  highest (l ++ [b]) = Some b.
Proof.
  induction 1 as [|x l Hx _ IH]; simpl; [reflexivity|].
  rewrite IH. case_decide; [lia | reflexivity].
Qed.

Lemma highest_nil_inv l : highest l = None -> l = [].
Proof.
  destruct l as [|b l]; [reflexivity|]. simpl.
  destruct (highest l); [case_decide|]; discriminate.
Qed.

Section Invariant.

Variable digest : Preimage -> Hash.
Variable canonical : Payload -> option string.

Local Abbreviation step := (step digest canonical).
Local Abbreviation reachable := (reachable digest canonical).
Local Abbreviation chain_ok := (chain_ok digest canonical).
Local Abbreviation hashed := (hashed digest canonical).
Local Abbreviation expected_hash := (expected_hash digest canonical).

Lemma gapless_highest l : gapless l -> highest l = last l.
Proof.
  intros Hg. destruct l as [|b0 l0] using rev_ind; [reflexivity|].
  rewrite last_snoc. apply highest_snoc.
  apply Forall_forall. intros x Hx.
  apply list_elem_of_lookup in Hx as [i Hi].
  pose proof (lookup_lt_Some _ _ _ Hi) as Hlt.
  rewrite (Hg i x) by (rewrite lookup_app_l; done).
  rewrite (Hg (length l0) b0) by apply list_lookup_middle, eq_refl.
  lia.
Qed.

Lemma gapless_prefix s l : s `prefix_of` l -> gapless l -> gapless s.
Proof.
  intros Hp Hg i b Hi. apply Hg. eapply prefix_lookup_Some; eauto.
Qed.

(** On a gapless ledger the block [prepare] builds takes the slot after
    the snapshot. *)
Lemma prepare_sequence s args now b :
  gapless s -> prepare digest canonical s args now = inr b ->
  sequence_number b = Z.of_nat (length s)
  /\ previous_hash b = Some (match last s with
                             | Some h => current_hash h
                             | None => GENESIS_HASH
                             end)
  /\ expected_hash b = Some (current_hash b).
Proof.
  intros Hg. unfold prepare.
  destruct (canonical (a_payload args)) as [c|] eqn:Hc; [|discriminate].
  intros [= <-]. rewrite (gapless_highest s Hg). simpl.
  unfold Ledger.expected_hash. simpl. rewrite Hc. simpl.
  split; [|split; reflexivity].
  destruct s as [|h s0] using rev_ind; [reflexivity|].
  rewrite last_snoc, length_app. simpl.
  rewrite (Hg (length s0) h) by apply list_lookup_middle, eq_refl. lia.
Qed.

Lemma slot_taken_false l b :
  slot_taken l b = false ->
  forall x, x ∈ l -> sequence_number x <> sequence_number b.
Proof.
  unfold slot_taken. intros H x Hx Heq.
  assert (existsb (fun x => bool_decide (sequence_number x = sequence_number b)
            || bool_decide (current_hash x = current_hash b)) l = true) as Ht.
  { apply existsb_exists. exists x. split; [by apply list_elem_of_In|].
    rewrite bool_decide_eq_true_2 by done. reflexivity. }
  congruence.
Qed.

(** A commit that succeeds was prepared from the current ledger: a stale
    writer finds its slot taken. *)
Lemma append_from_current s l args now l' :
  gapless l -> s `prefix_of` l ->
  append_from digest canonical s l args now = inr l' ->
  s = l /\ exists b, prepare digest canonical l args now = inr b /\ l' = l ++ [b].
Proof.
  intros Hg Hp. unfold append_from.
  destruct (prepare digest canonical s args now) as [e|b] eqn:Hprep; [discriminate|].
  unfold commit. destruct (slot_taken l b) eqn:Hslot; [discriminate|].
  intros [= <-].
  destruct (prepare_sequence s args now b (gapless_prefix s l Hp Hg) Hprep)
    as (Hseq & _ & _).
  assert (s = l) as ->; [|split; [reflexivity|eauto]].
  destruct Hp as [k ->]. destruct k as [|x k]; [by rewrite app_nil_r|].
  exfalso. apply (slot_taken_false _ _ Hslot x).
  - apply list_elem_of_lookup. exists (length s).
    apply list_lookup_middle, eq_refl.
  - rewrite Hseq. apply Hg. apply list_lookup_middle, eq_refl.
Qed.

Lemma step_prefix l l' : step l l' -> l `prefix_of` l'.
Proof.
  intros [now l0|s l0 args now _ _]; [apply initialize_prefix|].
  unfold append_from. destruct (prepare digest canonical s args now); simpl;
    [reflexivity|].
  unfold commit. destruct (slot_taken l0 b); simpl;
    [reflexivity | by apply prefix_app_r].
Qed.

Lemma steps_prefix l l' : rtc step l l' -> l `prefix_of` l'.
Proof.
  induction 1 as [|l1 l2 l3 H12 _ IH]; [reflexivity|].
  etrans; [by apply step_prefix | exact IH].
Qed.

Lemma chain_ok_bootstrap now : chain_ok (initialize now []).
Proof.
  split; [by exists now|]. split; [|split].
  - intros [|i] b; simpl; [by intros [= <-] | done].
  - intros [|i] p b; simpl; done.
  - intros [|i] b; simpl; done.
Qed.

Lemma chain_ok_snoc l b :
  chain_ok l ->
  sequence_number b = Z.of_nat (length l) ->
  previous_hash b = Some (match last l with
                          | Some h => current_hash h
                          | None => GENESIS_HASH
                          end) ->
  expected_hash b = Some (current_hash b) ->
  chain_ok (l ++ [b]).
Proof.
  intros ([now0 Hb] & Hg & Hl & Hh) Hseq Hprev Hexp.
  pose proof (lookup_lt_Some _ _ _ Hb) as Hlen.
  split; [|split; [|split]].
  - exists now0. by rewrite lookup_app_l.
  - intros i x Hi. destruct (decide (i < length l)%nat) as [Hlt|Hge].
    + rewrite lookup_app_l in Hi by done. by apply Hg.
    + rewrite lookup_app_r in Hi by lia.
      destruct (i - length l)%nat as [|j] eqn:Hj; simpl in Hi; [|done].
      injection Hi as <-. rewrite Hseq. f_equal. lia.
  - intros i p x Hp Hx. destruct (decide (S i < length l)%nat) as [Hlt|Hge].
    + rewrite lookup_app_l in Hp by lia. rewrite lookup_app_l in Hx by done.
      by eapply Hl.
    + rewrite lookup_app_r in Hx by lia.
      destruct (S i - length l)%nat as [|j] eqn:Hj; simpl in Hx; [|done].
      injection Hx as <-. assert (S i = length l) as Hi by lia.
      rewrite lookup_app_l in Hp by lia.
      rewrite Hprev. rewrite last_lookup, <- Hi. simpl. by rewrite Hp.
  - intros i x Hx. destruct (decide (S i < length l)%nat) as [Hlt|Hge].
    + rewrite lookup_app_l in Hx by done. by eapply Hh.
    + rewrite lookup_app_r in Hx by lia.
      destruct (S i - length l)%nat as [|j] eqn:Hj; simpl in Hx; [|done].
      by injection Hx as <-.
Qed.

Lemma step_chain_ok l l' : chain_ok l -> step l l' -> chain_ok l'.
Proof.
  intros Hok Hstep. destruct Hstep as [now l|s l args now Hp _].
  - destruct l; [apply chain_ok_bootstrap | exact Hok].
  - destruct (append_from digest canonical s l args now) as [e|l'] eqn:Happ;
      simpl; [exact Hok|].
    pose proof Hok as (_ & Hg & _).
    destruct (append_from_current s l args now l' Hg Hp Happ)
      as (-> & b & Hprep & ->).
    destruct (prepare_sequence l args now b Hg Hprep) as (Hs & Hpr & He).
    by apply chain_ok_snoc.
Qed.

Lemma reachable_chain_ok l : reachable l -> chain_ok l.
Proof.
  intros [now Hr].
  assert (forall l0, rtc step l0 l -> chain_ok l0 -> chain_ok l) as Hind.
  { clear. induction 1 as [|l1 l2 l3 H12 _ IH]; [done|].
    intros Hok. apply IH. by eapply step_chain_ok. }
  apply (Hind _ Hr), chain_ok_bootstrap.
Qed.

Lemma gapless_run l :
  gapless l -> sequence_number <$> l = Z.of_nat <$> seq 0 (length l).
Proof.
  intros Hg. apply list_eq. intros i. rewrite !list_lookup_fmap.
  destruct (l !! i) as [b|] eqn:Hi; simpl.
  - rewrite lookup_seq_lt by (by eapply lookup_lt_Some). simpl.
    f_equal. by apply Hg.
  - rewrite lookup_seq_ge by (by apply lookup_ge_None). reflexivity.
Qed.

End Invariant.

(** Claim C2.  In every ledger state reached from the bootstrap by
    initialize and append operations (also appends of writers that read a
    stale snapshot): each block after the first carries as previous hash
    the stored hash of the block before it; the stored sequence numbers
    are exactly 0, 1, ..., N in order; and whatever operations follow,
    every stored block, its current hash included, stays as it was
    inserted. *)
Theorem chain_invariant digest canonical (l : Ledger) :
  reachable digest canonical l ->
  (forall n p b, l !! n = Some p -> l !! S n = Some b ->
      previous_hash b = Some (current_hash p))
  /\ sequence_number <$> l = Z.of_nat <$> seq 0 (length l)
  /\ (forall l', rtc (step digest canonical) l l' ->
        forall i b, l !! i = Some b ->
          l' !! i = Some b
          /\ current_hash <$> (l' !! i) = Some (current_hash b)).
Proof.
  intros Hr. destruct (reachable_chain_ok digest canonical l Hr) as (_ & Hg & Hl & _).
  split; [exact Hl|]. split; [by apply gapless_run|].
  intros l' Hsteps i b Hi.
  pose proof (steps_prefix digest canonical l l' Hsteps) as Hp.
  rewrite (prefix_lookup_Some l l' i b Hi Hp). done.
Qed.

(** ** Verification *)

Lemma filter_Forall_id {A} (P : A -> Prop) `{forall x, Decision (P x)} (l : list A) :
  Forall P l -> filter P l = l.
Proof.
  induction 1 as [|x l Hx _ IH]; [reflexivity|].
  rewrite filter_cons_True by done. by rewrite IH.
Qed.

Lemma ascending_run k (l : Ledger) :
  (forall i b, l !! i = Some b -> sequence_number b = k + Z.of_nat i) ->
  ascending l = l.
Proof.
  revert k. induction l as [|a r IH]; intros k Hk; [reflexivity|].
  simpl. rewrite (IH (k + 1)).
  - destruct r as [|x r']; [reflexivity|]. simpl.
    rewrite (Hk 0%nat a eq_refl), (Hk 1%nat x eq_refl).
    case_decide; [reflexivity | lia].
  - intros i b Hi. rewrite (Hk (S i) b Hi). lia.
Qed.

Section Verification.

Variable digest : Preimage -> Hash.
Variable canonical : Payload -> option string.

Local Abbreviation reachable := (reachable digest canonical).
Local Abbreviation chain_ok := (chain_ok digest canonical).
Local Abbreviation expected_hash := (expected_hash digest canonical).
Local Abbreviation check_block := (check_block digest canonical).
Local Abbreviation scan := (scan digest canonical).
Local Abbreviation scan_stream := (scan_stream digest canonical).
Local Abbreviation verify := (verify digest canonical).






Lemma chain_ok_check l i p b :
  chain_ok l -> l !! i = Some p -> l !! S i = Some b -> check_block p b = [].
Proof.
  intros (_ & Hg & Hl & Hh) Hp Hb. unfold Ledger.check_block.
  rewrite decide_True by (by eapply Hh).
  rewrite decide_True by (by eapply Hl).
  rewrite decide_True; [reflexivity|].
  rewrite (Hg _ _ Hp), (Hg _ _ Hb). lia.
Qed.

Lemma scan_pointwise p r :
  (forall i a b, (p :: r) !! i = Some a -> (p :: r) !! S i = Some b ->
      check_block a b = []) ->
  scan p r = [].
Proof.
  revert p. induction r as [|x r IH]; intros p Hall; [reflexivity|].
  simpl. rewrite (Hall 0%nat p x eq_refl eq_refl). simpl.
  apply IH. intros i a b Ha Hb. by apply (Hall (S i)).
Qed.

Lemma chain_ok_scan l : chain_ok l -> scan_stream l = [].
Proof.
  intros Hok. destruct l as [|p r]; [reflexivity|]. simpl.
  apply scan_pointwise. intros i a b Ha Hb. by eapply chain_ok_check.
Qed.

Lemma stream_gapless l : gapless l -> stream 0 None l = l.
Proof.
  intros Hg. unfold stream. rewrite (ascending_run 0 l).
  - apply filter_Forall_id, Forall_forall. intros b Hb.
    apply list_elem_of_lookup in Hb as [i Hi]. rewrite (Hg _ _ Hi). lia.
  - intros i b Hi. rewrite (Hg _ _ Hi). lia.
Qed.

Lemma prior_of_gapless l : gapless l -> prior_of 0 l = None.
Proof.
  intros Hg. unfold prior_of. rewrite (ascending_run 0 l).
  - assert (Forall (fun b => 0 <= sequence_number b) l) as Hall.
    { apply Forall_forall. intros b Hb.
      apply list_elem_of_lookup in Hb as [i Hi]. rewrite (Hg _ _ Hi). lia. }
    clear Hg. induction Hall as [|a r Ha _ IH]; [reflexivity|].
    rewrite filter_cons_False by lia. exact IH.
  - intros i b Hi. rewrite (Hg _ _ Hi). lia.
Qed.

(** A ledger reached by bootstrap and appends verifies without error. *)
Lemma verify_reachable l :
  reachable l ->
  verify l = {| is_valid := true; blocks_checked := length l; errors := [] |}.
Proof.
  intros Hr. pose proof (reachable_chain_ok _ _ _ Hr) as Hok.
  pose proof Hok as (_ & Hg & _).
  unfold Ledger.verify, verify_range.
  rewrite (prior_of_gapless l Hg), (stream_gapless l Hg).
  by rewrite (chain_ok_scan l Hok).
Qed.



End Verification.


(** ** The ledger on a concrete chain *)

Lemma demo_chain_reachable : reachable demo_digest demo_canonical demo_chain.
Proof.
  exists 1000. eapply rtc_l.
  { apply (step_append demo_digest demo_canonical
             (initialize 1000 []) (initialize 1000 []) (demo_args "tab_switch") 1001);
      [reflexivity | discriminate]. }
  eapply rtc_l; [|apply rtc_refl].
  apply (step_append demo_digest demo_canonical _ _ (demo_args "no_face") 1002);
    [reflexivity | discriminate].
Qed.

Lemma chain_invariant_witness :
  reachable demo_digest demo_canonical demo_chain
  /\ previous_hash <$> (demo_chain !! 2%nat)
     = Some (current_hash <$> (demo_chain !! 1%nat))
  /\ sequence_number <$> demo_chain = [0; 1; 2].
Proof.
  pose proof (chain_invariant demo_digest demo_canonical demo_chain
                demo_chain_reachable) as (Hlink & Hrun & _).
  split; [exact demo_chain_reachable|]. split; [|exact Hrun].
  exact (f_equal Some (Hlink 1%nat _ _ eq_refl eq_refl)).
Defined.



End Ledger.

(* ===================================================================== *)
(** * The attempt status of the database schema *)
(* ===================================================================== *)

Module Schema.

(** [CREATE TYPE attempt_status AS ENUM ('in_progress', 'submitted',
    'auto_submitted', 'abandoned')] (schema.sql, line 21). *)
Inductive attempt_status : Type :=
  | in_progress
  | submitted
  | auto_submitted
  | abandoned.

#[global] Instance attempt_status_eq_dec : EqDecision attempt_status.
Proof. solve_decision. Defined.

(** The label of an enum value, as a query returns it. *)
Definition attempt_status_label (s : attempt_status) : string :=
  match s with
  | in_progress => "in_progress"
  | submitted => "submitted"
  | auto_submitted => "auto_submitted"
  | abandoned => "abandoned"
  end.

(** The labels in the order of the [CREATE TYPE]. *)
Definition attempt_status_labels : list string :=
  ["in_progress"; "submitted"; "auto_submitted"; "abandoned"].

(** The enum input function: a text that is no label of the type is
    refused ("invalid input value for enum"). *)
Definition attempt_status_of_label (t : string) : option attempt_status :=
  if decide (t = "in_progress") then Some in_progress
  else if decide (t = "submitted") then Some submitted
  else if decide (t = "auto_submitted") then Some auto_submitted
  else if decide (t = "abandoned") then Some abandoned
  else None.

(** The same type as MANUAL_SETUP.sql declares it (line 24). *)
Definition manual_setup_attempt_status_labels : list string :=
  ["in_progress"; "completed"; "terminated"; "cancelled"].

(** The four values the data model of the specification lists. *)
Definition specified_statuses : list string :=
  ["in_progress"; "warned"; "terminated"; "submitted"].

(** A row of [exam_attempts] (schema.sql, lines 94-106), reduced to the
    [status] column: [status attempt_status DEFAULT 'in_progress'], which
    is nullable. *)
Record Attempt : Type := mkAttempt {
  status : option attempt_status
}.

(** A value written to the [status] column. *)
Inductive Value : Type :=
  | DEFAULT
  | NULL
  | Text (label : string).

Inductive SqlError : Type :=
  | InvalidEnumInput (label : string)
  | UniqueViolation (id : string).

Definition eval_status (v : Value) : SqlError + option attempt_status :=
  match v with
  | DEFAULT => inr (Some in_progress)
  | NULL => inr None
  | Text t =>
      match attempt_status_of_label t with
      | Some s => inr (Some s)
      | None => inl (InvalidEnumInput t)
      end
  end.

(** The statements that write the column; rows are keyed by their id. *)
Inductive Statement : Type :=
  | InsertAttempt (id : string) (v : Value)
  | UpdateStatus (id : string) (v : Value).

Definition exec (st : Statement) (t : gmap string Attempt)
    : SqlError + gmap string Attempt :=
  match st with
  | InsertAttempt id v =>
      match eval_status v with
      | inl e => inl e
      | inr s =>
          match t !! id with
          | Some _ => inl (UniqueViolation id)
          | None => inr (<[id := mkAttempt s]> t)
          end
      end
  | UpdateStatus id v =>
      match eval_status v with
      | inl e => inl e
      | inr s =>
          match t !! id with
          | Some _ => inr (<[id := mkAttempt s]> t)
          | None => inr t
          end
      end
  end.

(** A failed statement leaves the table as it was. *)
Definition exec_keep (t : gmap string Attempt) (st : Statement)
    : gmap string Attempt :=
  match exec st t with
  | inl _ => t
  | inr t' => t'
  end.

Definition run (sts : list Statement) (t : gmap string Attempt)
    : gmap string Attempt :=
  foldl exec_keep t sts.

(** The label stored for an attempt, when the row exists and is not NULL. *)
Definition stored_label (t : gmap string Attempt) (id : string) : option string :=
  a ← t !! id; s ← status a; Some (attempt_status_label s).

Lemma attempt_status_label_listed s :
  attempt_status_label s ∈ attempt_status_labels.
Proof.
  unfold attempt_status_labels. rewrite !elem_of_cons. destruct s; simpl; tauto.
Qed.

Lemma attempt_status_of_label_Some t s :
  attempt_status_of_label t = Some s <-> attempt_status_label s = t.
Proof.
  unfold attempt_status_of_label. split.
  - repeat case_decide; intros [= <-]; by subst.
  - intros <-. by destruct s.
Qed.

Lemma attempt_status_of_label_None t :
  attempt_status_of_label t = None <-> t ∉ attempt_status_labels.
Proof.
  unfold attempt_status_of_label, attempt_status_labels. split.
  - repeat case_decide; try discriminate. intros _ Hin.
    rewrite !elem_of_cons in Hin.
    destruct Hin as [?|[?|[?|[?|Hin]]]]; try done.
    by apply not_elem_of_nil in Hin.
  - intros Hno.
    repeat case_decide; subst; try reflexivity;
      exfalso; apply Hno; rewrite !elem_of_cons; tauto.
Qed.

(** Claim C9, as the schema has it.  Whatever statements are run, a stored
    attempt status is one of the four labels of the [attempt_status] type,
    which are in_progress, submitted, auto_submitted and abandoned; a write
    of any other text, the labels warned and terminated of the data model
    among them, is refused and changes nothing. *)
Theorem status_stays_in_enum (sts : list Statement) (id label : string) :
  stored_label (run sts ∅) id = Some label ->
  (label ∈ attempt_status_labels)
  /\ (forall t i txt, txt ∉ attempt_status_labels ->
        exec (UpdateStatus i (Text txt)) t = inl (InvalidEnumInput txt)
        /\ exec (InsertAttempt i (Text txt)) t = inl (InvalidEnumInput txt))
  /\ ("warned" ∉ attempt_status_labels)
  /\ ("terminated" ∉ attempt_status_labels).
Proof.
  intros Hst. split; [|split; [|split]].
  - unfold stored_label in Hst.
    destruct (run sts ∅ !! id) as [a|]; simpl in Hst; [|discriminate].
    destruct (status a) as [s|]; simpl in Hst; [|discriminate].
    injection Hst as <-. apply attempt_status_label_listed.
  - intros t i txt Hno. apply attempt_status_of_label_None in Hno.
    simpl. by rewrite Hno.
  - apply attempt_status_of_label_None. reflexivity.
  - apply attempt_status_of_label_None. reflexivity.
Qed.

Lemma status_stays_in_enum_witness :
  stored_label
    (run [InsertAttempt "a1" DEFAULT; UpdateStatus "a1" (Text "terminated");
          UpdateStatus "a1" (Text "abandoned")] ∅) "a1" = Some "abandoned"
  /\ ("abandoned" ∈ attempt_status_labels).
Proof.
  split; [vm_compute; reflexivity|].
  apply (status_stays_in_enum
           [InsertAttempt "a1" DEFAULT; UpdateStatus "a1" (Text "terminated");
            UpdateStatus "a1" (Text "abandoned")] "a1" "abandoned").
  vm_compute. reflexivity.
Defined.

(** An attempt can be stored as auto_submitted, which is none of the four
    values of the data model, and cannot be stored as warned or terminated,
    which are. *)
Lemma status_outside_specified_counterexample :
  stored_label
    (run [InsertAttempt "a1" DEFAULT; UpdateStatus "a1" (Text "auto_submitted")] ∅)
    "a1" = Some "auto_submitted"
  /\ bool_decide ("auto_submitted" ∈ specified_statuses) = false
  /\ exec (UpdateStatus "a1" (Text "warned")) {["a1" := mkAttempt (Some in_progress)]}
     = inl (InvalidEnumInput "warned")
  /\ exec (UpdateStatus "a1" (Text "terminated")) {["a1" := mkAttempt (Some in_progress)]}
     = inl (InvalidEnumInput "terminated").
Proof. repeat split; vm_compute; reflexivity. Qed.

End Schema.

(* ===================================================================== *)
(** * The bootstrap of the table of blocks (schema.sql, seed_data.sql) *)
(* ===================================================================== *)

Module BlockchainLogs.

(** A row of [blockchain_logs] (schema.sql, lines 175-185), reduced to
    the columns that the bootstrap fills: [id] and [timestamp] take
    their defaults, [exam_id] and [attempt_id] stay NULL. *)
Record Row : Type := mkRow {
  block_index : Z;
  data : string;
  previous_hash : string;
  current_hash : string;
  nonce : Z
}.

(** The [VALUES] of an [INSERT] for these columns, NULL as [None]. *)
Record Values : Type := mkValues {
  v_block_index : option Z;
  v_data : option string;
  v_previous_hash : option string;
  v_current_hash : option string;
  v_nonce : option Z
}.

Inductive SqlError : Type :=
  | StringDataRightTruncation
  | NumericValueOutOfRange
  | NotNullViolation (column : string)
  | UniqueViolation (constraint : string).

#[local] Instance sql_bind : MBind (sum SqlError) :=
  fun A B f m => match m with inl e => inl e | inr x => f x end.

Fixpoint blank (s : string) : bool :=
  match s with
  | EmptyString => true
  | String a s' => Ascii.eqb a (Ascii.ascii_of_nat 32) && blank s'
  end.

(** A value stored as [VARCHAR(n)]: one that is too long is refused
    ("value too long for type character varying"), unless all that
    exceeds [n] characters is blanks, which are cut off. *)
Definition varchar (n : nat) (s : string) : SqlError + string :=
  if decide (String.length s <= n)%nat then inr s
  else if blank (String.substring n (String.length s - n) s)
       then inr (String.substring 0 n s)
       else inl StringDataRightTruncation.

(** A value stored as [INTEGER]. *)
Definition integer (z : Z) : SqlError + Z :=
  if decide (-2147483648 <= z <= 2147483647) then inr z
  else inl NumericValueOutOfRange.

Definition coerce {A} (f : A -> SqlError + A) (v : option A)
    : SqlError + option A :=
  match v with
  | None => inr None
  | Some x => y ← f x; inr (Some y)
  end.

Definition not_null {A} (column : string) (v : option A) : SqlError + A :=
  match v with
  | Some x => inr x
  | None => inl (NotNullViolation column)
  end.

(** [INSERT INTO blockchain_logs (...) VALUES (...)] on the table of
    schema.sql: the values are brought to the types of their columns,
    the five columns declared [NOT NULL] refuse NULL, and [block_index]
    and [current_hash], declared [UNIQUE], refuse a value that a row
    already holds.  A refused statement leaves the table as it was. *)
Definition insert (t : list Row) (v : Values) : SqlError + list Row :=
  bi ← coerce integer (v_block_index v);
  ph ← coerce (varchar 64) (v_previous_hash v);
  ch ← coerce (varchar 64) (v_current_hash v);
  no ← coerce integer (v_nonce v);
  bi ← not_null "block_index" bi;
  da ← not_null "data" (v_data v);
  ph ← not_null "previous_hash" ph;
  ch ← not_null "current_hash" ch;
  no ← not_null "nonce" no;
  if decide (Exists (fun x => block_index x = bi) t) then
    inl (UniqueViolation "blockchain_logs_block_index_key")
  else if decide (Exists (fun x => current_hash x = ch) t) then
    inl (UniqueViolation "blockchain_logs_current_hash_key")
  else inr (t ++ [mkRow bi da ph ch no]).

Definition exec_keep (t : list Row) (v : Values) : list Row :=
  match insert t v with
  | inl _ => t
  | inr t' => t'
  end.

(** The statements of a script, one after the other. *)
Definition run (script : list Values) (t : list Row) : list Row :=
  foldl exec_keep t script.












End BlockchainLogs.

(* ===================================================================== *)
(** * The severity table *)
(* ===================================================================== *)

Module Classifier.

Inductive Severity : Type :=
  | low
  | medium
  | high
  | critical.

#[global] Instance Severity_eq_dec : EqDecision Severity.
Proof. solve_decision. Defined.

(** [PROCTORING_EVENTS] (utils/constants.js, lines 5-21): the known raw
    signal tags, by their constant names. *)
Definition PROCTORING_EVENTS : list (string * string) :=
  [("FACE_DETECTION", "face_detection");
   ("VOICE_DETECTION", "voice_detection");
   ("STRESS_ALERT", "stress_alert");
   ("TAB_SWITCH", "tab_switch");
   ("WINDOW_BLUR", "window_blur");
   ("MULTIPLE_FACES", "multiple_faces");
   ("NO_FACE", "no_face");
   ("SUSPICIOUS_BEHAVIOR", "suspicious_behavior");
   ("COPY_ATTEMPT", "copy_attempt");
   ("PASTE_ATTEMPT", "paste_attempt");
   ("CUT_ATTEMPT", "cut_attempt");
   ("RIGHT_CLICK_ATTEMPT", "right_click_attempt");
   ("RESTRICTED_KEY_ATTEMPT", "restricted_key_attempt");
   ("FULLSCREEN_EXIT", "fullscreen_exit");
   ("SCREEN_RECORDING", "screen_recording_detected")].

Definition known_tags : list string := PROCTORING_EVENTS.*2.

(** The entries of the object literal [EVENT_SEVERITY]
    (utils/constants.js, lines 48-64), in the order written. *)
Definition EVENT_SEVERITY_entries : list (string * Severity) :=
  [("face_detection", low);
   ("voice_detection", low);
   ("stress_alert", medium);
   ("tab_switch", medium);
   ("window_blur", medium);
   ("multiple_faces", high);
   ("no_face", high);
   ("suspicious_behavior", high);
   ("copy_attempt", high);
   ("paste_attempt", high);
   ("cut_attempt", high);
   ("right_click_attempt", medium);
   ("restricted_key_attempt", high);
   ("fullscreen_exit", high);
   ("screen_recording_detected", critical)].

(** The object the literal builds: a later entry for a key would replace
    an earlier one. *)
Definition EVENT_SEVERITY : gmap string Severity :=
  foldl (fun m kv => <[kv.1 := kv.2]> m) ∅ EVENT_SEVERITY_entries.

Lemma EVENT_SEVERITY_keys_NoDup : NoDup EVENT_SEVERITY_entries.*1.
Proof. apply (bool_decide_unpack _). vm_compute. exact I. Qed.

Lemma EVENT_SEVERITY_known tag :
  tag ∈ known_tags <-> is_Some (EVENT_SEVERITY !! tag).
Proof.
  split.
  - unfold known_tags, PROCTORING_EVENTS. simpl. rewrite !elem_of_cons.
    intros H. repeat (destruct H as [->|H]; [vm_compute; eauto|]).
    by apply not_elem_of_nil in H.
  - intros [s Hs]. apply elem_of_dom_2 in Hs.
    assert (dom EVENT_SEVERITY = list_to_set known_tags) as Hdom.
    { apply (bool_decide_unpack _). vm_compute. exact I. }
    rewrite Hdom in Hs. by apply elem_of_list_to_set in Hs.
Qed.

End Classifier.

(* ===================================================================== *)
(** * The event throttle of the face monitor *)
(* ===================================================================== *)

Module FaceMonitor.

(** A value of the metadata object. *)
Inductive JsValue : Type :=
  | JNum (x : float)
  | JStr (s : string).

(** The object handed to [onEvent]. *)
Record Event : Type := mkEvent {
  event_type : string;
  description : string;
  metadata : gmap string JsValue
}.

(** The window of the throttle, in milliseconds (FaceMonitor.jsx, line 168;
    [PROCTORING_THRESHOLDS.EVENT_THROTTLE] of utils/constants.js holds the
    same number). *)
Definition EVENT_THROTTLE : Z := 2000.

(** [triggerEvent] (FaceMonitor.jsx, lines 163-182).  [lastEventTime] is
    [lastEventTimeRef.current], one object per mounted monitor and so per
    attempt; [now] is the reading of [Date.now()] and [stamp] the text of
    [new Date().toISOString()].  The result is the updated object and the
    event passed to [onEvent], if any.  A missing entry reads as 0.  The
    object is read as a finite map, which it is on the event types of
    [PROCTORING_EVENTS]: none of them names a property that a plain
    object inherits. *)
Definition triggerEvent (lastEventTime : gmap string Z) (now : Z) (stamp : string)
    (eventType description : string) (confidence : float)
    (extraMetadata : gmap string JsValue)
    : gmap string Z * option Event :=
  let lastTime := default 0 (lastEventTime !! eventType) in
  if decide (now - lastTime < EVENT_THROTTLE) then (lastEventTime, None)
  else
    (<[eventType := now]> lastEventTime,
     Some {| event_type := eventType;
             description := description;
             metadata :=
               extraMetadata
               ∪ {[ "confidence_score" := JNum confidence;
                    "timestamp" := JStr stamp;
                    "source" := JStr "mediapipe_face_detection" ]} |}).

(** [onFaceDetectionResults] (FaceMonitor.jsx, lines 119-134), reduced to
    the events it triggers: the raw signal is the number of faces in the
    frame. *)
Definition onFaceDetectionResults (lastEventTime : gmap string Z) (now : Z)
    (stamp : string) (faces : nat) : gmap string Z * option Event :=
  if decide (faces = 0%nat) then
    triggerEvent lastEventTime now stamp "no_face" "No face detected" 0.9%float ∅
  else if decide (1 < faces)%nat then
    triggerEvent lastEventTime now stamp "multiple_faces"
      (pretty faces +:+ " faces detected") 0.95%float
      {[ "face_count" := JNum (Js.float_of_nat faces) ]}
  else (lastEventTime, None).

Lemma triggerEvent_emits m now stamp e d c x :
  EVENT_THROTTLE <= now - default 0 (m !! e) ->
  (triggerEvent m now stamp e d c x).1 = <[e := now]> m
  /\ is_Some (triggerEvent m now stamp e d c x).2.
Proof.
  intros H. unfold triggerEvent. rewrite decide_False by lia. simpl. eauto.
Qed.

Lemma triggerEvent_drops m now stamp e d c x :
  now - default 0 (m !! e) < EVENT_THROTTLE ->
  triggerEvent m now stamp e d c x = (m, None).
Proof. intros H. unfold triggerEvent. by rewrite decide_True. Qed.

(** The decision for one event type reads only that type's entry. *)
Lemma triggerEvent_other m m' now stamp e d c x :
  m' !! e = m !! e ->
  (triggerEvent m' now stamp e d c x).2 = (triggerEvent m now stamp e d c x).2.
Proof.
  intros H. unfold triggerEvent. rewrite H. by case_decide.
Qed.

(** Claim C8, as the monitor has it.  Two signals of one event type reach
    the monitor of an attempt less than 2000 ms apart.  At most one of
    them is passed to [onEvent].  When the first arrives outside a
    running window it is passed on, as the event with its type,
    description, confidence and timestamp, and the second is dropped;
    when the first arrives inside a running window it is dropped and the
    second is decided as if the first had not arrived.  A dropped signal
    leaves the state of the monitor as it was, so nothing is queued.  A
    signal of another event type, arriving at any time, is passed or
    dropped exactly as it would have been without the two, and is passed
    on when it arrives outside the window of its own type. *)
Theorem throttle_drops_duplicate (m : gmap string Z) (t1 t2 : Z)
    (stamp1 stamp2 e d1 d2 : string) (c1 c2 : float) (x1 x2 : gmap string JsValue) :
  e ∈ Classifier.known_tags ->
  t2 - t1 < EVENT_THROTTLE ->
  let r1 := triggerEvent m t1 stamp1 e d1 c1 x1 in
  let r2 := triggerEvent r1.1 t2 stamp2 e d2 c2 x2 in
  (r1.2 = None \/ r2.2 = None)
  /\ (EVENT_THROTTLE <= t1 - default 0 (m !! e) ->
        r1 = (<[e := t1]> m,
              Some {| event_type := e;
                      description := d1;
                      metadata :=
                        x1 ∪ {[ "confidence_score" := JNum c1;
                                "timestamp" := JStr stamp1;
                                "source" := JStr "mediapipe_face_detection" ]} |})
        /\ r2 = (r1.1, None))
  /\ (t1 - default 0 (m !! e) < EVENT_THROTTLE ->
        r1 = (m, None)
        /\ r2 = triggerEvent m t2 stamp2 e d2 c2 x2)
  /\ (r1.2 = None -> r1.1 = m)
  /\ (r2.2 = None -> r2.1 = r1.1)
  /\ (forall e' t stamp d c x, e' ∈ Classifier.known_tags -> e' <> e ->
        (triggerEvent r1.1 t stamp e' d c x).2 = (triggerEvent m t stamp e' d c x).2
        /\ (triggerEvent r2.1 t stamp e' d c x).2
           = (triggerEvent m t stamp e' d c x).2
        /\ (EVENT_THROTTLE <= t - default 0 (m !! e') ->
            (triggerEvent r2.1 t stamp e' d c x).2
            = Some {| event_type := e';
                      description := d;
                      metadata :=
                        x ∪ {[ "confidence_score" := JNum c;
                               "timestamp" := JStr stamp;
                               "source" := JStr "mediapipe_face_detection" ]} |})).
Proof.
  intros _ H2 r1 r2.
  assert (forall m' t stamp d c x,
            (triggerEvent m' t stamp e d c x).2 = None ->
            (triggerEvent m' t stamp e d c x).1 = m') as Hkeep.
  { intros m' t stamp d c x. unfold triggerEvent. by case_decide. }
  assert (forall m' t stamp e' d c x, e' <> e ->
            (triggerEvent m' t stamp e d c x).1 !! e' = m' !! e') as Hother.
  { intros m' t stamp e' d c x Hne. unfold triggerEvent.
    case_decide; simpl; [done|]. by apply lookup_insert_ne. }
  assert (EVENT_THROTTLE <= t1 - default 0 (m !! e) ->
          r1 = (<[e := t1]> m,
                Some {| event_type := e;
                        description := d1;
                        metadata :=
                          x1 ∪ {[ "confidence_score" := JNum c1;
                                  "timestamp" := JStr stamp1;
                                  "source" := JStr "mediapipe_face_detection" ]} |})
          /\ r2 = (r1.1, None)) as Hfirst.
  { intros H1.
    assert (r1 = (<[e := t1]> m,
                  Some {| event_type := e;
                          description := d1;
                          metadata :=
                            x1 ∪ {[ "confidence_score" := JNum c1;
                                    "timestamp" := JStr stamp1;
                                    "source" := JStr "mediapipe_face_detection" ]} |}))
      as Hr1.
    { subst r1. unfold triggerEvent. by rewrite decide_False by lia. }
    split; [exact Hr1|]. subst r2. rewrite Hr1. cbn [fst].
    apply triggerEvent_drops. rewrite lookup_insert_eq. simpl. lia. }
  assert (t1 - default 0 (m !! e) < EVENT_THROTTLE ->
          r1 = (m, None) /\ r2 = triggerEvent m t2 stamp2 e d2 c2 x2) as Hsecond.
  { intros H1.
    assert (r1 = (m, None)) as Hr1 by (by apply triggerEvent_drops).
    split; [exact Hr1|]. subst r2. by rewrite Hr1. }
  split; [|split; [exact Hfirst|split; [exact Hsecond|split; [|split]]]].
  - destruct (decide (t1 - default 0 (m !! e) < EVENT_THROTTLE)) as [H1|H1].
    + left. destruct (Hsecond H1) as [-> _]. reflexivity.
    + right. destruct (Hfirst ltac:(lia)) as [_ ->]. reflexivity.
  - apply Hkeep.
  - apply Hkeep.
  - intros e' t stamp d c x _ Hne.
    assert (r1.1 !! e' = m !! e') as Hsame1 by (by apply Hother).
    assert (r2.1 !! e' = m !! e') as Hsame2.
    { subst r2. rewrite Hother by done. exact Hsame1. }
    split; [by apply triggerEvent_other|].
    split; [by apply triggerEvent_other|].
    intros Ht. rewrite (triggerEvent_other m r2.1) by done.
    unfold triggerEvent. by rewrite decide_False by lia.
Qed.

Lemma throttle_drops_duplicate_witness :
  ("no_face" ∈ Classifier.known_tags)
  /\ 1700000001500 - 1700000000000 < EVENT_THROTTLE
  /\ (triggerEvent ∅ 1700000000000 "t1" "no_face" "No face detected" 0.9%float ∅).1
     = {[ "no_face" := 1700000000000 ]}
  /\ (triggerEvent {[ "no_face" := 1700000000000 ]} 1700000001500 "t2"
        "no_face" "No face detected" 0.9%float ∅)
     = ({[ "no_face" := 1700000000000 ]}, None).
Proof.
  assert ("no_face" ∈ Classifier.known_tags) as Hknown.
  { apply (bool_decide_unpack _). vm_compute. exact I. }
  assert (1700000001500 - 1700000000000 < EVENT_THROTTLE) as H2.
  { vm_compute. reflexivity. }
  pose proof (throttle_drops_duplicate ∅ 1700000000000 1700000001500
                "t1" "t2" "no_face" "No face detected" "No face detected"
                0.9%float 0.9%float ∅ ∅ Hknown H2) as H.
  cbv zeta in H.
  assert (EVENT_THROTTLE
          <= 1700000000000 - default 0 ((∅ : gmap string Z) !! "no_face")) as H1.
  { vm_compute. discriminate. }
  destruct H as (_ & Hfirst & _).
  destruct (Hfirst H1) as [_ Hdrop].
  split; [exact Hknown|]. split; [exact H2|]. split; [reflexivity|].
  exact Hdrop.
Defined.

(** Frames with no face arriving every second: one event per window. *)
Example no_face_every_second :
  let r0 := onFaceDetectionResults ∅ 1700000000000 "s0" 0 in
  let r1 := onFaceDetectionResults r0.1 1700000001000 "s1" 0 in
  let r2 := onFaceDetectionResults r1.1 1700000001200 "s2" 3 in
  let r3 := onFaceDetectionResults r2.1 1700000002000 "s3" 0 in
  is_Some r0.2 /\ r1.2 = None /\ is_Some r2.2 /\ is_Some r3.2.
Proof. repeat split; vm_compute; eauto. Qed.

End FaceMonitor.

(* ===================================================================== *)
(** * Handling proctoring events on the exam page *)
(* ===================================================================== *)

Module ExamSession.

(** The events the page handles are the objects the monitors pass to
    [onEvent]. *)
Abbreviation Event := FaceMonitor.Event.
Abbreviation event_type := FaceMonitor.event_type.
Abbreviation description := FaceMonitor.description.
Abbreviation metadata := FaceMonitor.metadata.

(** The state variables of [ExamSessionPage] that the handlers read
    (ExamSessionPage.jsx, lines 22-25), as one render of the component
    binds them.  A handler created by a render keeps these values:
    [setProctoringActive] changes what the next render binds, not them. *)
Record Closure : Type := mkClosure {
  attemptId : option string;
  proctoringActive : bool
}.

(** What one run of a handler meets outside: whether the request it makes
    is answered or fails, the text of [new Date().toISOString()], the
    text of the error of a failed request, and whether [wsRef.current]
    holds a socket. *)
Record Env : Type := mkEnv {
  request_ok : bool;
  clock : string;
  error_message : string;
  ws_connected : bool
}.

(** What a handler does, in the order in which it does it. *)
Inductive Effect : Type :=
  | SetProctoringActive (b : bool)
  | PostTerminate (id reason eventType terminated_at : string) (resolved : bool)
  | PostEvent (id eventType descr : string) (meta : gmap string FaceMonitor.JsValue)
      (resolved : bool)
  | PostSubmit (id : string) (resolved : bool)
  | CloseWebSocket
  | SetEvents (e : Event) (timestamp : string)
  | ConsoleError (msg : string)
  | Alert (msg : string)
  | Navigate (path : string).

(** [!attemptId] holds for [null] and for the empty string. *)
Definition truthy (v : option string) : option string :=
  match v with
  | Some s => if decide (s = "") then None else Some s
  | None => None
  end.

(** [autoTerminate] (ExamSessionPage.jsx, lines 328-351). *)
Definition autoTerminate (c : Closure) (env : Env) (reason eventType : string)
    : list Effect :=
  match truthy (attemptId c) with
  | None => []
  | Some id =>
      if negb (proctoringActive c) then []
      else
        SetProctoringActive false
        :: (if request_ok env then
              [PostTerminate id reason eventType (clock env) true;
               Alert ("Exam Terminated: " +:+ reason);
               Navigate "/exams"]
            else
              [PostTerminate id reason eventType (clock env) false;
               ConsoleError "Failed to terminate exam:";
               Alert "Exam terminated due to violation.";
               Navigate "/exams"])
  end.

(** [handleProctoringEvent] (ExamSessionPage.jsx, lines 353-391). *)
Definition handleProctoringEvent (c : Closure) (env : Env) (event : Event)
    : list Effect :=
  match truthy (attemptId c) with
  | None => []
  | Some id =>
      if decide (event_type event = "multiple_faces") then
        autoTerminate c env "Multiple persons detected" "multiple_faces"
      else if decide (event_type event = "tab_switch") then
        autoTerminate c env "Tab/Window switch detected" "tab_switch"
      else if decide (event_type event = "window_blur") then
        autoTerminate c env "Window lost focus" "window_blur"
      else if request_ok env then
        [PostEvent id (event_type event) (description event) (metadata event) true;
         SetEvents event (clock env)]
      else
        [PostEvent id (event_type event) (description event) (metadata event) false;
         ConsoleError "Failed to log event:"]
  end.

(** [handleSubmit] (ExamSessionPage.jsx, lines 400-421); [confirmed] is
    the answer to [window.confirm]. *)
Definition handleSubmit (c : Closure) (env : Env) (confirmed : bool)
    : list Effect :=
  match truthy (attemptId c) with
  | None => []
  | Some id =>
      if negb confirmed then []
      else
        SetProctoringActive false
        :: (if ws_connected env then [CloseWebSocket] else [])
        ++ (if request_ok env then
              [PostSubmit id true;
               Alert "Exam submitted successfully!";
               Navigate "/dashboard"]
            else
              [PostSubmit id false;
               ConsoleError "Failed to submit exam:";
               Alert ("Failed to submit exam: " +:+ error_message env)])
  end.

(** The state of the page that the effects change. *)
Record Page : Type := mkPage {
  st_attemptId : option string;
  st_proctoringActive : bool;
  st_events : list (Event * string)
}.

(** The handlers a render of the page creates. *)
Definition render (p : Page) : Closure :=
  {| attemptId := st_attemptId p; proctoringActive := st_proctoringActive p |}.

Definition apply_effect (p : Page) (e : Effect) : Page :=
  match e with
  | SetProctoringActive b =>
      {| st_attemptId := st_attemptId p;
         st_proctoringActive := b;
         st_events := st_events p |}
  | SetEvents ev ts =>
      {| st_attemptId := st_attemptId p;
         st_proctoringActive := st_proctoringActive p;
         st_events := take 10 ((ev, ts) :: st_events p) |}
  | _ => p
  end.

Definition apply_effects (effs : list Effect) (p : Page) : Page :=
  foldl apply_effect p effs.

(** The listeners for tab switches, window blur and the clipboard are
    registered by an effect that depends on [exam] and [attemptId] only
    (ExamSessionPage.jsx, lines 138-297): every event they receive is
    handled by the handler of the render that registered them. *)
Definition listeners_trace (c : Closure) (inputs : list (Env * Event))
    : list Effect :=
  concat (map (fun i => handleProctoringEvent c i.1 i.2) inputs).

(** The event types that end the session. *)
Definition AUTO_TERMINATE : list string :=
  ["multiple_faces"; "tab_switch"; "window_blur"].

Definition is_terminate_request (e : Effect) : bool :=
  match e with PostTerminate _ _ _ _ _ => true | _ => false end.

Definition is_recorded (e : Effect) : bool :=
  match e with PostTerminate _ _ _ _ true => true | _ => false end.

Definition is_log_request (e : Effect) : bool :=
  match e with PostEvent _ _ _ _ _ => true | _ => false end.

Definition is_state_change (e : Effect) : bool :=
  match e with SetProctoringActive _ => true | _ => false end.

(** What tells the student that the session has ended. *)
Definition is_report (e : Effect) : bool :=
  match e with Alert _ | Navigate _ => true | _ => false end.

(** The action of the state machine that a run of the handler amounts to. *)
Inductive Action : Type :=
  | terminate
  | warn
  | log_only
  | no_action.

Definition action_of (effs : list Effect) : Action :=
  if existsb is_terminate_request effs then terminate
  else if existsb is_log_request effs then log_only
  else no_action.

(** A handler of an attempt that sees proctoring active, and one that
    sees it switched off. *)
Definition active (id : string) : Closure :=
  {| attemptId := Some id; proctoringActive := true |}.

Definition ended (id : string) : Closure :=
  {| attemptId := Some id; proctoringActive := false |}.

(** A run in which the request is answered at time [t], and one in which
    it fails. *)
Definition answered (t : string) : Env :=
  {| request_ok := true; clock := t; error_message := ""; ws_connected := true |}.

Definition failed (t : string) : Env :=
  {| request_ok := false; clock := t; error_message := "Network Error";
     ws_connected := true |}.

Definition tab_switch_event : Event :=
  FaceMonitor.mkEvent "tab_switch" "Student switched tab or window"
    {[ "source" := FaceMonitor.JStr "browser_api" ]}.

Definition window_blur_event : Event :=
  FaceMonitor.mkEvent "window_blur" "Window lost focus"
    {[ "source" := FaceMonitor.JStr "browser_api" ]}.

Definition copy_event : Event :=
  FaceMonitor.mkEvent "copy_attempt" "Student attempted to copy content"
    {[ "source" := FaceMonitor.JStr "browser_api" ]}.

(** ** One run of a handler *)

Lemma AUTO_TERMINATE_cases (t : string) :
  t ∈ AUTO_TERMINATE <-> t = "multiple_faces" \/ t = "tab_switch" \/ t = "window_blur".
Proof.
  unfold AUTO_TERMINATE. rewrite !elem_of_cons. split.
  - intros [?|[?|[?|H]]]; eauto. by apply not_elem_of_nil in H.
  - intros [?|[?|?]]; eauto.
Qed.

(** An active handler with an attempt runs [autoTerminate] to its end. *)
Lemma autoTerminate_active c env reason eventType id :
  truthy (attemptId c) = Some id -> proctoringActive c = true ->
  autoTerminate c env reason eventType
  = SetProctoringActive false
    :: PostTerminate id reason eventType (clock env) (request_ok env)
    :: (if request_ok env then
          [Alert ("Exam Terminated: " +:+ reason); Navigate "/exams"]
        else
          [ConsoleError "Failed to terminate exam:";
           Alert "Exam terminated due to violation.";
           Navigate "/exams"]).
Proof.
  intros Hid Hact. unfold autoTerminate. rewrite Hid, Hact. simpl.
  by destruct (request_ok env).
Qed.

Lemma autoTerminate_inactive c env reason eventType :
  proctoringActive c = false -> autoTerminate c env reason eventType = [].
Proof.
  intros Hact. unfold autoTerminate. rewrite Hact.
  by destruct (truthy (attemptId c)).
Qed.

Lemma autoTerminate_requests_once c env reason eventType :
  (length (filter is_terminate_request (autoTerminate c env reason eventType)) <= 1)%nat.
Proof.
  unfold autoTerminate. destruct (truthy (attemptId c)); [|simpl; lia].
  destruct (proctoringActive c); simpl; [|lia].
  destruct (request_ok env); vm_compute; lia.
Qed.

(** On the event types that do not end the session the handler posts the
    event to the log. *)
Lemma handle_other c env ev id :
  truthy (attemptId c) = Some id -> event_type ev ∉ AUTO_TERMINATE ->
  handleProctoringEvent c env ev
  = PostEvent id (event_type ev) (description ev) (metadata ev) (request_ok env)
    :: (if request_ok env then [SetEvents ev (clock env)]
        else [ConsoleError "Failed to log event:"]).
Proof.
  intros Hid Hno. rewrite AUTO_TERMINATE_cases in Hno.
  unfold handleProctoringEvent. rewrite Hid.
  rewrite !decide_False by tauto. by destruct (request_ok env).
Qed.

Lemma handle_auto_terminate c env ev :
  event_type ev ∈ AUTO_TERMINATE ->
  exists reason,
    handleProctoringEvent c env ev = autoTerminate c env reason (event_type ev).
Proof.
  intros Hin. apply AUTO_TERMINATE_cases in Hin.
  unfold handleProctoringEvent.
  destruct (truthy (attemptId c)) as [id|] eqn:Hid.
  - destruct Hin as [H|[H|H]]; rewrite H; simpl; eauto.
  - exists "". unfold autoTerminate. by rewrite Hid.
Qed.

(** Ending the session and submitting both leave the page inactive. *)
Lemma terminate_deactivates p env ev id :
  truthy (st_attemptId p) = Some id -> st_proctoringActive p = true ->
  event_type ev ∈ AUTO_TERMINATE ->
  st_proctoringActive (apply_effects (handleProctoringEvent (render p) env ev) p)
  = false.
Proof.
  intros Hid Hact Hin. destruct (handle_auto_terminate (render p) env ev Hin)
    as [reason ->].
  rewrite (autoTerminate_active _ env reason _ id) by done.
  by destruct (request_ok env).
Qed.

Lemma submit_deactivates p env id :
  truthy (st_attemptId p) = Some id ->
  st_proctoringActive (apply_effects (handleSubmit (render p) env true) p) = false.
Proof.
  intros Hid. unfold handleSubmit. simpl. rewrite Hid. simpl.
  by destruct (ws_connected env), (request_ok env).
Qed.



(** Claim C3, as the page has it.  An active handler that ends the session
    first switches proctoring off, then posts the terminate request, which
    carries the triggering event type and the time of termination, and
    waits for its outcome; every message to the student and the navigation
    away come after the request.  When the request succeeded the student
    is told "Exam Terminated" with the reason; when it failed the student
    is told "Exam terminated due to violation." all the same, with no
    record made. *)
Theorem autoTerminate_request_before_report (c : Closure) (env : Env)
    (reason eventType id : string) :
  truthy (attemptId c) = Some id ->
  proctoringActive c = true ->
  let effs := autoTerminate c env reason eventType in
  effs !! 0%nat = Some (SetProctoringActive false)
  /\ effs !! 1%nat
     = Some (PostTerminate id reason eventType (clock env) (request_ok env))
  /\ (forall i e, effs !! i = Some e -> is_report e = true -> (1 < i)%nat)
  /\ existsb is_report effs = true
  /\ (request_ok env = true ->
        effs !! 2%nat = Some (Alert ("Exam Terminated: " +:+ reason))
        /\ existsb is_recorded effs = true)
  /\ (request_ok env = false ->
        effs !! 3%nat = Some (Alert "Exam terminated due to violation.")
        /\ existsb is_recorded effs = false).
Proof.
  intros Hid Hact effs. subst effs.
  rewrite (autoTerminate_active c env reason eventType id Hid Hact).
  split; [reflexivity|]. split; [reflexivity|]. split; [|split; [|split]].
  - intros [|[|i]] e; simpl; [intros [= <-]; discriminate
                              | intros [= <-]; discriminate | intros; lia].
  - by destruct (request_ok env).
  - intros ->. by split.
  - intros ->. by split.
Qed.

Lemma autoTerminate_request_before_report_witness :
  autoTerminate (active "a1")
    (answered "2026-01-18T10:00:00.000Z") "Window lost focus" "window_blur"
  !! 1%nat
  = Some (PostTerminate "a1" "Window lost focus" "window_blur"
            "2026-01-18T10:00:00.000Z" true).
Proof.
  pose proof (autoTerminate_request_before_report (active "a1")
                (answered "2026-01-18T10:00:00.000Z")
                "Window lost focus" "window_blur" "a1" eq_refl eq_refl)
    as (_ & Hreq & _).
  exact Hreq.
Defined.

(** The terminate request fails: the student is told that the exam was
    terminated and is sent away, and no termination was recorded. *)
Lemma termination_reported_unrecorded_counterexample :
  handleProctoringEvent (active "a1")
    (failed "2026-01-18T10:00:00.000Z") tab_switch_event
  = [SetProctoringActive false;
     PostTerminate "a1" "Tab/Window switch detected" "tab_switch"
       "2026-01-18T10:00:00.000Z" false;
     ConsoleError "Failed to terminate exam:";
     Alert "Exam terminated due to violation.";
     Navigate "/exams"]
  /\ existsb is_report
       (handleProctoringEvent (active "a1")
          (failed "2026-01-18T10:00:00.000Z") tab_switch_event)
     = true
  /\ existsb is_recorded
       (handleProctoringEvent (active "a1")
          (failed "2026-01-18T10:00:00.000Z") tab_switch_event)
     = false.
Proof. repeat split. Qed.

(** What a handler that sees proctoring switched off does: nothing, or
    the posting of the event to the log. *)
Lemma handle_inactive c env ev :
  proctoringActive c = false ->
  handleProctoringEvent c env ev = []
  \/ exists id,
       handleProctoringEvent c env ev
       = PostEvent id (event_type ev) (description ev) (metadata ev) (request_ok env)
         :: (if request_ok env then [SetEvents ev (clock env)]
             else [ConsoleError "Failed to log event:"]).
Proof.
  intros Hact. destruct (decide (event_type ev ∈ AUTO_TERMINATE)) as [Hin|Hno].
  - left. destruct (handle_auto_terminate c env ev Hin) as [reason ->].
    by apply autoTerminate_inactive.
  - destruct (truthy (attemptId c)) as [id|] eqn:Hid.
    + right. exists id. by apply handle_other.
    + left. unfold handleProctoringEvent. by rewrite Hid.
Qed.

Lemma handle_inactive_no_terminate c env ev :
  proctoringActive c = false ->
  existsb is_terminate_request (handleProctoringEvent c env ev) = false.
Proof.
  intros Hact. destruct (handle_inactive c env ev Hact) as [->|[id ->]];
    [reflexivity|]. by destruct (request_ok env).
Qed.

(** Claim C5, as the page has it.  A handler that sees proctoring switched
    off, as it is after a termination or a submission, does nothing at all
    on an event of type multiple_faces, tab_switch or window_blur, and
    posts any other event to the log; in neither case does it request a
    termination or touch the attempt or the proctoring flag of the page.
    So the handlers of a render that follows a termination request no
    second one.  And no single handling, by any handler, requests
    termination more than once. *)
Theorem terminal_handler_inert (c : Closure) (env : Env) (ev : Event) :
  proctoringActive c = false ->
  let effs := handleProctoringEvent c env ev in
  (event_type ev ∈ AUTO_TERMINATE -> effs = [])
  /\ (forall id, truthy (attemptId c) = Some id ->
        event_type ev ∉ AUTO_TERMINATE -> action_of effs = log_only)
  /\ existsb is_terminate_request effs = false
  /\ existsb is_state_change effs = false
  /\ (forall p,
        st_proctoringActive (apply_effects effs p) = st_proctoringActive p
        /\ st_attemptId (apply_effects effs p) = st_attemptId p)
  /\ (forall p env1 ev1 env2 ev2 id,
        truthy (st_attemptId p) = Some id ->
        st_proctoringActive p = true ->
        event_type ev1 ∈ AUTO_TERMINATE ->
        existsb is_terminate_request
          (handleProctoringEvent
             (render (apply_effects (handleProctoringEvent (render p) env1 ev1) p))
             env2 ev2)
        = false)
  /\ (forall c' env' ev',
        (length (filter is_terminate_request (handleProctoringEvent c' env' ev'))
         <= 1)%nat).
Proof.
  intros Hact effs. pose proof (handle_inactive c env ev Hact) as Hshape.
  fold effs in Hshape.
  split; [|split; [|split; [|split; [|split; [|split]]]]].
  - intros Hin. destruct (handle_auto_terminate c env ev Hin) as [reason Heq].
    subst effs. rewrite Heq. by apply autoTerminate_inactive.
  - intros id Hid Hno. subst effs. rewrite (handle_other c env ev id) by done.
    by destruct (request_ok env).
  - by apply handle_inactive_no_terminate.
  - destruct Hshape as [->|[id ->]]; [reflexivity|]. by destruct (request_ok env).
  - intros p. destruct Hshape as [->|[id ->]]; [done|].
    by destruct (request_ok env).
  - intros p env1 ev1 env2 ev2 id Hid Hon Hin.
    apply handle_inactive_no_terminate. simpl.
    by apply (terminate_deactivates p env1 ev1 id).
  - intros c' env' ev'. unfold handleProctoringEvent.
    destruct (truthy (attemptId c')); [|simpl; lia].
    repeat case_decide; try apply autoTerminate_requests_once.
    destruct (request_ok env'); simpl; lia.
Qed.

Lemma terminal_handler_inert_witness :
  handleProctoringEvent (ended "a1")
    (answered "2026-01-18T10:00:05.000Z") window_blur_event = []
  /\ action_of (handleProctoringEvent (ended "a1")
                  (answered "2026-01-18T10:00:05.000Z") copy_event)
     = log_only.
Proof.
  pose proof (terminal_handler_inert (ended "a1")
                (answered "2026-01-18T10:00:05.000Z") window_blur_event
                eq_refl) as (Hnil & _).
  pose proof (terminal_handler_inert (ended "a1")
                (answered "2026-01-18T10:00:05.000Z") copy_event
                eq_refl) as (_ & Hlog & _).
  split.
  - apply Hnil. apply AUTO_TERMINATE_cases. right. right. reflexivity.
  - apply (Hlog "a1" eq_refl). apply (bool_decide_unpack _). vm_compute. exact I.
Defined.

(** After the session has ended a tab switch is not logged: the handler
    does nothing.  And listeners registered by a render that saw
    proctoring active keep that handler, and request termination once for
    every tab switch they receive. *)
Lemma terminal_event_counterexample :
  handleProctoringEvent (ended "a1")
    (answered "2026-01-18T10:00:05.000Z") tab_switch_event = []
  /\ action_of (handleProctoringEvent (ended "a1")
                  (answered "2026-01-18T10:00:05.000Z") tab_switch_event)
     = no_action
  /\ filter is_terminate_request
       (listeners_trace (active "a1")
          [(answered "2026-01-18T10:00:05.000Z", tab_switch_event);
           (answered "2026-01-18T10:00:05.010Z", tab_switch_event)])
     = [PostTerminate "a1" "Tab/Window switch detected" "tab_switch"
          "2026-01-18T10:00:05.000Z" true;
        PostTerminate "a1" "Tab/Window switch detected" "tab_switch"
          "2026-01-18T10:00:05.010Z" true].
Proof. repeat split. Qed.

End ExamSession.

(* ===================================================================== *)
(** * From the sources of events to the log: tags and throttling *)
(* ===================================================================== *)

Module EventPath.

Import ExamSession.

(** An event with a tag that [PROCTORING_EVENTS] does not hold. *)
Definition unknown_event : Event :=
  FaceMonitor.mkEvent "totally_unknown_tag" "Detected totally_unknown_tag"
    {[ "source" := FaceMonitor.JStr "ai_backend" ]}.

Lemma EVENT_SEVERITY_entries_known :
  Forall (fun kv => kv.1 ∈ Classifier.known_tags)
    Classifier.EVENT_SEVERITY_entries.
Proof. apply (bool_decide_unpack _). vm_compute. exact I. Qed.

(** Claim C7, as the sources have it.  The severity of an event type is
    given by the static table [EVENT_SEVERITY], which holds exactly one
    severity for each known tag, and none for any other: no_face, like
    copy_attempt, is high, window_blur is medium and voice_detection is
    low.  The table is consulted by nothing: a handler that holds an
    attempt posts an event of any type other than the three that end the
    session to the log as it is, whether the table holds its tag or not,
    and records the failure of that request only. *)
Theorem severity_table_total_any_tag_logged :
  (forall tag, tag ∈ Classifier.known_tags ->
     exists s, Classifier.EVENT_SEVERITY !! tag = Some s
               /\ forall s', (tag, s') ∈ Classifier.EVENT_SEVERITY_entries -> s' = s)
  /\ (forall tag, tag ∉ Classifier.known_tags ->
        Classifier.EVENT_SEVERITY !! tag = None
        /\ forall s, (tag, s) ∉ Classifier.EVENT_SEVERITY_entries)
  /\ Classifier.EVENT_SEVERITY !! "no_face" = Some Classifier.high
  /\ Classifier.EVENT_SEVERITY !! "copy_attempt" = Some Classifier.high
  /\ Classifier.EVENT_SEVERITY !! "window_blur" = Some Classifier.medium
  /\ Classifier.EVENT_SEVERITY !! "voice_detection" = Some Classifier.low
  /\ (forall c env ev id,
        truthy (attemptId c) = Some id ->
        event_type ev ∉ AUTO_TERMINATE ->
        handleProctoringEvent c env ev
        = PostEvent id (event_type ev) (description ev) (metadata ev)
            (request_ok env)
          :: (if request_ok env then [SetEvents ev (clock env)]
              else [ConsoleError "Failed to log event:"])).
Proof.
  split; [|split; [|split; [|split; [|split; [|split]]]]];
    try (vm_compute; reflexivity).
  - intros tag Hin. unfold Classifier.known_tags in Hin. simpl in Hin.
    rewrite !elem_of_cons in Hin.
    repeat (destruct Hin as [->|Hin];
            [eexists; split; [vm_compute; reflexivity|];
             intros s' Hs'; unfold Classifier.EVENT_SEVERITY_entries in Hs';
             rewrite !elem_of_cons in Hs';
             repeat (destruct Hs' as [Hs'|Hs']; [congruence|]);
             by apply not_elem_of_nil in Hs'|]).
    by apply not_elem_of_nil in Hin.
  - intros tag Hno. split.
    + destruct (Classifier.EVENT_SEVERITY !! tag) as [s|] eqn:Hs; [|done].
      exfalso. apply Hno. apply Classifier.EVENT_SEVERITY_known. eauto.
    + intros s Hin. apply Hno.
      pose proof EVENT_SEVERITY_entries_known as Hall.
      rewrite Forall_forall in Hall. exact (Hall _ Hin).
  - intros c env ev id Hid Hno. rewrite (handle_other c env ev id Hid Hno).
    by destruct (request_ok env).
Qed.

(** A tag that the table does not hold is not refused: the handler posts
    the event to the log like any other. *)
Lemma unknown_tag_logged_counterexample :
  Classifier.EVENT_SEVERITY !! "totally_unknown_tag" = None
  /\ handleProctoringEvent (active "a1") (answered "2026-01-18T10:00:00.000Z")
       unknown_event
     = [PostEvent "a1" "totally_unknown_tag" "Detected totally_unknown_tag"
          {[ "source" := FaceMonitor.JStr "ai_backend" ]} true;
        SetEvents unknown_event "2026-01-18T10:00:00.000Z"]
  /\ action_of (handleProctoringEvent (active "a1")
                  (answered "2026-01-18T10:00:00.000Z") unknown_event)
     = log_only.
Proof. repeat split; vm_compute; reflexivity. Qed.

(** Inside a running window both of two signals are dropped, so that no
    event is passed on; and the events of the page's own listeners are
    not throttled: two copy events 10 ms apart are both posted to the
    log. *)
Lemma duplicate_signals_counterexample :
  FaceMonitor.triggerEvent {[ "no_face" := 1700000000000 ]} 1700000000500 "t1"
    "no_face" "No face detected" 0.9%float ∅
  = ({[ "no_face" := 1700000000000 ]}, None)
  /\ FaceMonitor.triggerEvent {[ "no_face" := 1700000000000 ]} 1700000001000 "t2"
       "no_face" "No face detected" 0.9%float ∅
     = ({[ "no_face" := 1700000000000 ]}, None)
  /\ filter is_log_request
       (listeners_trace (active "a1")
          [(answered "2026-01-18T10:00:05.000Z", copy_event);
           (answered "2026-01-18T10:00:05.010Z", copy_event)])
     = [PostEvent "a1" "copy_attempt" "Student attempted to copy content"
          {[ "source" := FaceMonitor.JStr "browser_api" ]} true;
        PostEvent "a1" "copy_attempt" "Student attempted to copy content"
          {[ "source" := FaceMonitor.JStr "browser_api" ]} true].
Proof. repeat split; vm_compute; reflexivity. Qed.

End EventPath.

(* ===================================================================== *)
(** * Behavioural buffers and baselines *)
(* ===================================================================== *)

Module AdvancedProctoring.

(** ** JavaScript arithmetic *)

(** [arr.reduce((a, b) => a + b, 0)]. *)
Definition sum (values : list float) : float :=
  foldl (fun a b => (a + b)%float) 0%float values.

(** [arr.length] as a number. *)
Definition len {A} (l : list A) : float := Js.float_of_nat (length l).

(** [v || d] on a number that may be [undefined]: 0 and NaN are falsy. *)
Definition or_else (v : option float) (d : float) : float :=
  match v with
  | Some x => if (PrimFloat.eqb x 0 || PrimFloat.is_nan x)%bool then d else x
  | None => d
  end.

(** [Math.min] of two numbers. *)
Definition math_min (a b : float) : float :=
  if (PrimFloat.is_nan a || PrimFloat.is_nan b)%bool then PrimFloat.nan
  else if PrimFloat.ltb a b then a else b.

(** [Math.pow(v, 2)], taken as the product. *)
Definition square (v : float) : float := (v * v)%float.

(** [arr.slice(-n)]. *)
Definition slice_last {A} (n : nat) (l : list A) : list A :=
  drop (length l - n) l.

(** ** Records *)

(** The part of a keyboard event that is read; [pressure] is undefined on
    keyboard events. *)
Record KeyEvent : Type := mkKeyEvent {
  ev_key : string;
  ev_pressure : option float
}.

Record Keystroke : Type := mkKeystroke {
  key : string;
  timestamp : float;
  duration : float;
  pressure : float
}.

Record MouseEvent : Type := mkMouseEvent {
  clientX : float;
  clientY : float;
  ev_type : string
}.

Record Movement : Type := mkMovement {
  x : float;
  y : float;
  m_timestamp : float;
  type : string
}.

Record TypingProfile : Type := mkTypingProfile {
  avgInterval : float;
  stdDev : float;
  wpm : float
}.

Record MouseProfile : Type := mkMouseProfile {
  avgVelocity : float;
  m_stdDev : float
}.

(** The two properties [compareProfiles] reads; a mouse profile has no
    [avgInterval], which reads as [undefined] and is NaN in arithmetic. *)
Record ProfileView : Type := mkView {
  v_avgInterval : float;
  v_stdDev : float
}.

Definition typing_view (p : TypingProfile) : ProfileView :=
  {| v_avgInterval := avgInterval p; v_stdDev := stdDev p |}.

Definition mouse_view (p : MouseProfile) : ProfileView :=
  {| v_avgInterval := PrimFloat.nan; v_stdDev := m_stdDev p |}.

Record Anomaly : Type := mkAnomaly {
  anomaly : string;
  confidence : float;
  message : string
}.

(** The fields of the service object (advancedProctoring.js, lines 7-14);
    [tfModel] is kept as whether a model is loaded. *)
Record Service : Type := mkService {
  keystrokeBuffer : list Keystroke;
  mouseBuffer : list Movement;
  baselineTyping : option TypingProfile;
  baselineMouse : option MouseProfile;
  stressLevel : float;
  tfModel : bool
}.

Definition constructor : Service :=
  {| keystrokeBuffer := [];
     mouseBuffer := [];
     baselineTyping := None;
     baselineMouse := None;
     stressLevel := 0%float;
     tfModel := false |}.

(** ** Profiles *)

(** [calculateStdDev] (lines 213-217). *)
Definition calculateStdDev (values : list float) : float :=
  let avg := (sum values / len values)%float in
  let squareDiffs := map (fun value => square (value - avg)%float) values in
  PrimFloat.sqrt (sum squareDiffs / len values)%float.

(** [calculateTypingProfile] (lines 156-169). *)
Definition calculateTypingProfile (keystrokes : list Keystroke)
    : option TypingProfile :=
  if decide (length keystrokes < 2)%nat then None
  else
    let intervals :=
      zip_with (fun prev cur => (timestamp cur - timestamp prev)%float)
        keystrokes (tail keystrokes) in
    Some {| avgInterval := (sum intervals / len intervals)%float;
            stdDev := calculateStdDev intervals;
            wpm := ((60000 / (sum intervals / len intervals)) * 5)%float |}.

(** [calculateMouseProfile] (lines 174-195): a velocity is recorded for
    each consecutive pair with a positive time difference. *)
Definition calculateMouseProfile (movements : list Movement)
    : option MouseProfile :=
  if decide (length movements < 2)%nat then None
  else
    let velocities :=
      omap id
        (zip_with
           (fun prev cur =>
              let dx := (x cur - x prev)%float in
              let dy := (y cur - y prev)%float in
              let dt := (m_timestamp cur - m_timestamp prev)%float in
              if PrimFloat.ltb 0 dt
              then Some (PrimFloat.sqrt (dx * dx + dy * dy) / dt)%float
              else None)
           movements (tail movements)) in
    Some {| avgVelocity := (sum velocities / len velocities)%float;
            m_stdDev := calculateStdDev velocities |}.

(** [compareProfiles] (lines 200-208). *)
Definition compareProfiles (baseline current : option ProfileView) : float :=
  match baseline, current with
  | Some b, Some c =>
      let avgDiff :=
        (PrimFloat.abs (v_avgInterval b - v_avgInterval c) / v_avgInterval b)%float in
      let stdDiff :=
        (PrimFloat.abs (v_stdDev b - v_stdDev c) / or_else (Some (v_stdDev b)) 1)%float in
      ((avgDiff + stdDiff) / 2)%float
  | _, _ => 0%float
  end.

(** ** Capturing *)

(** [captureKeystroke] (lines 76-112); [now] is the reading of
    [Date.now()]. *)
Definition captureKeystroke (event : KeyEvent) (now : float) (s : Service)
    : Service * option Anomaly :=
  let keystroke :=
    {| key := ev_key event; timestamp := now; duration := 0%float;
       pressure := or_else (ev_pressure event) 0 |} in
  let pushed := keystrokeBuffer s ++ [keystroke] in
  let buffer := if decide (100 < length pushed)%nat then tail pushed else pushed in
  let baseline :=
    match baselineTyping s with
    | Some p => Some p
    | None =>
        if decide (50 <= length buffer)%nat then calculateTypingProfile buffer
        else None
    end in
  let s' :=
    {| keystrokeBuffer := buffer;
       mouseBuffer := mouseBuffer s;
       baselineTyping := baseline;
       baselineMouse := baselineMouse s;
       stressLevel := stressLevel s;
       tfModel := tfModel s |} in
  match baseline with
  | Some p =>
      if decide (20 <= length buffer)%nat then
        let currentProfile := calculateTypingProfile (slice_last 20 buffer) in
        let deviation :=
          compareProfiles (Some (typing_view p)) (typing_view <$> currentProfile) in
        if PrimFloat.ltb 0.35 deviation then
          (s', Some {| anomaly := "typing_pattern_change";
                       confidence := math_min deviation 0.975;
                       message := "Abrupt change in typing pattern detected" |})
        else (s', None)
      else (s', None)
  | None => (s', None)
  end.

(** [captureMouseMovement] (lines 117-151). *)
Definition captureMouseMovement (event : MouseEvent) (now : float) (s : Service)
    : Service * option Anomaly :=
  let movement :=
    {| x := clientX event; y := clientY event; m_timestamp := now;
       type := ev_type event |} in
  let pushed := mouseBuffer s ++ [movement] in
  let buffer := if decide (200 < length pushed)%nat then tail pushed else pushed in
  let baseline :=
    match baselineMouse s with
    | Some p => Some p
    | None =>
        if decide (100 <= length buffer)%nat then calculateMouseProfile buffer
        else None
    end in
  let s' :=
    {| keystrokeBuffer := keystrokeBuffer s;
       mouseBuffer := buffer;
       baselineTyping := baselineTyping s;
       baselineMouse := baseline;
       stressLevel := stressLevel s;
       tfModel := tfModel s |} in
  match baseline with
  | Some p =>
      if decide (50 <= length buffer)%nat then
        let currentProfile := calculateMouseProfile (slice_last 50 buffer) in
        let deviation :=
          compareProfiles (Some (mouse_view p)) (mouse_view <$> currentProfile) in
        if PrimFloat.ltb 0.40 deviation then
          (s', Some {| anomaly := "mouse_pattern_change";
                       confidence := math_min deviation 0.975;
                       message := "Unusual mouse movement pattern detected" |})
        else (s', None)
      else (s', None)
  | None => (s', None)
  end.

(** [detectExcessiveMovement] (lines 261-279). *)
Definition detectExcessiveMovement (s : Service) : bool :=
  if decide (length (mouseBuffer s) < 50)%nat then false
  else
    let recentMovements := slice_last 50 (mouseBuffer s) in
    let rapidChanges :=
      length
        (filter (fun d => PrimFloat.ltb 100 d = true)
           (zip_with
              (fun prev cur =>
                 PrimFloat.sqrt (square (x cur - x prev) + square (y cur - y prev))%float)
              recentMovements (tail recentMovements))) in
    bool_decide (15 < rapidChanges)%nat.

(** [detectStressLevel] (lines 223-256), as the state it leaves: the
    score is the share of the three indicators that hold. *)
Definition detectStressLevel (s : Service) : Service :=
  let excessiveMovement := detectExcessiveMovement s in
  let rapidTyping :=
    bool_decide (50 < length (keystrokeBuffer s))%nat
    && match baselineTyping s with
       | Some p => PrimFloat.ltb 80 (wpm p)
       | None => false
       end in
  let erraticMouse :=
    bool_decide (100 < length (mouseBuffer s))%nat
    && match baselineMouse s with
       | Some p => PrimFloat.ltb 0.5 (m_stdDev p)
       | None => false
       end in
  let stressScore :=
    (len (filter (fun v => v = true) [excessiveMovement; rapidTyping; erraticMouse])
     / 3)%float in
  {| keystrokeBuffer := keystrokeBuffer s;
     mouseBuffer := mouseBuffer s;
     baselineTyping := baselineTyping s;
     baselineMouse := baselineMouse s;
     stressLevel := stressScore;
     tfModel := tfModel s |}.

(** [initializeTensorFlow] (lines 19-34), as the state it leaves: the
    model is set when it could be loaded. *)
Definition initializeTensorFlow (loaded : bool) (s : Service) : Service :=
  {| keystrokeBuffer := keystrokeBuffer s;
     mouseBuffer := mouseBuffer s;
     baselineTyping := baselineTyping s;
     baselineMouse := baselineMouse s;
     stressLevel := stressLevel s;
     tfModel := if loaded then true else tfModel s |}.

(** [reset] (lines 357-363). *)
Definition reset (s : Service) : Service :=
  {| keystrokeBuffer := [];
     mouseBuffer := [];
     baselineTyping := None;
     baselineMouse := None;
     stressLevel := 0%float;
     tfModel := tfModel s |}.

(** The methods that write the state of the service. *)
Inductive Call : Type :=
  | CaptureKeystroke (event : KeyEvent) (now : float)
  | CaptureMouseMovement (event : MouseEvent) (now : float)
  | DetectStressLevel
  | InitializeTensorFlow (loaded : bool)
  | Reset.

Definition step (s : Service) (c : Call) : Service :=
  match c with
  | CaptureKeystroke event now => (captureKeystroke event now s).1
  | CaptureMouseMovement event now => (captureMouseMovement event now s).1
  | DetectStressLevel => detectStressLevel s
  | InitializeTensorFlow loaded => initializeTensorFlow loaded s
  | Reset => reset s
  end.

Definition run (calls : list Call) (s : Service) : Service :=
  foldl step s calls.

(** The state invariant of the service. *)
Definition bounded (s : Service) : Prop :=
  (length (keystrokeBuffer s) <= 100)%nat
  /\ (length (mouseBuffer s) <= 200)%nat
  /\ ((50 <= length (keystrokeBuffer s))%nat -> is_Some (baselineTyping s))
  /\ ((100 <= length (mouseBuffer s))%nat -> is_Some (baselineMouse s)).

(** Keystrokes at the given times, in order. *)
Definition typing (times : list Z) : list Call :=
  map (fun t => CaptureKeystroke (mkKeyEvent "a" None)
                  (PrimFloat.of_uint63 (Uint63.of_Z t))) times.

(** Fifty keystrokes 100 ms apart, then seventy 10 ms apart. *)
Definition steady_then_fast : list Z :=
  ((fun i => 1700000000000 + 100 * Z.of_nat i) <$> seq 0 50)
  ++ ((fun i => 1700000005000 + 10 * Z.of_nat i) <$> seq 0 70).

(** ** What a capture does to the state *)

Lemma captureKeystroke_state event now s :
  let pushed := keystrokeBuffer s
                ++ [{| key := ev_key event; timestamp := now; duration := 0%float;
                       pressure := or_else (ev_pressure event) 0 |}] in
  let buffer := if decide (100 < length pushed)%nat then tail pushed else pushed in
  let s' := (captureKeystroke event now s).1 in
  keystrokeBuffer s' = buffer
  /\ baselineTyping s'
     = match baselineTyping s with
       | Some p => Some p
       | None => if decide (50 <= length buffer)%nat
                 then calculateTypingProfile buffer else None
       end
  /\ mouseBuffer s' = mouseBuffer s
  /\ baselineMouse s' = baselineMouse s.
Proof.
  unfold captureKeystroke. cbv zeta.
  repeat case_match; simpl; repeat split; reflexivity.
Qed.

Lemma captureMouseMovement_state event now s :
  let pushed := mouseBuffer s
                ++ [{| x := clientX event; y := clientY event; m_timestamp := now;
                       type := ev_type event |}] in
  let buffer := if decide (200 < length pushed)%nat then tail pushed else pushed in
  let s' := (captureMouseMovement event now s).1 in
  mouseBuffer s' = buffer
  /\ baselineMouse s'
     = match baselineMouse s with
       | Some p => Some p
       | None => if decide (100 <= length buffer)%nat
                 then calculateMouseProfile buffer else None
       end
  /\ keystrokeBuffer s' = keystrokeBuffer s
  /\ baselineTyping s' = baselineTyping s.
Proof.
  unfold captureMouseMovement. cbv zeta.
  repeat case_match; simpl; repeat split; reflexivity.
Qed.

Lemma shifted_length {A} (n : nat) (l : list A) (a : A) :
  let pushed := l ++ [a] in
  length (if decide (n < length pushed)%nat then tail pushed else pushed)
  = if decide (n < S (length l))%nat then length l else S (length l).
Proof.
  cbv zeta. rewrite length_app. simpl. rewrite Nat.add_1_r.
  case_decide; [|rewrite length_app; simpl; lia].
  destruct l as [|b l]; simpl; [reflexivity|]. rewrite length_app. simpl. lia.
Qed.

Lemma calculateTypingProfile_is_Some ks :
  (2 <= length ks)%nat -> is_Some (calculateTypingProfile ks).
Proof.
  intros H. unfold calculateTypingProfile. rewrite decide_False by lia. eauto.
Qed.

Lemma calculateMouseProfile_is_Some ms :
  (2 <= length ms)%nat -> is_Some (calculateMouseProfile ms).
Proof.
  intros H. unfold calculateMouseProfile. rewrite decide_False by lia. eauto.
Qed.

Lemma bounded_constructor : bounded constructor.
Proof. repeat split; simpl; lia. Qed.

Lemma bounded_step s c : bounded s -> bounded (step s c).
Proof.
  intros (Hk & Hm & Hbk & Hbm). destruct c as [e now|e now| |loaded|]; simpl.
  - destruct (captureKeystroke_state e now s) as (Hb & Hbase & Hmb & Hbmo).
    cbv zeta in Hb, Hbase. unfold bounded. rewrite Hb, Hbase, Hmb, Hbmo.
    clear Hb Hbase Hmb Hbmo.
    rewrite shifted_length. split; [case_decide; lia|]. split; [done|].
    split; [|done]. intros H50.
    destruct (baselineTyping s); [eauto|]. rewrite decide_True by done.
    apply calculateTypingProfile_is_Some. rewrite shifted_length.
    eapply Nat.le_trans; [|exact H50]. lia.
  - destruct (captureMouseMovement_state e now s) as (Hb & Hbase & Hkb & Hbty).
    cbv zeta in Hb, Hbase. unfold bounded. rewrite Hb, Hbase, Hkb, Hbty.
    clear Hb Hbase Hkb Hbty.
    rewrite shifted_length. split; [done|]. split; [case_decide; lia|].
    split; [done|]. intros H100.
    destruct (baselineMouse s); [eauto|]. rewrite decide_True by done.
    apply calculateMouseProfile_is_Some. rewrite shifted_length.
    eapply Nat.le_trans; [|exact H100]. lia.
  - done.
  - done.
  - repeat split; simpl; lia.
Qed.

Lemma bounded_run calls s : bounded s -> bounded (run calls s).
Proof.
  revert s. induction calls as [|c calls IH]; intros s Hs; [done|].
  simpl. apply IH. by apply bounded_step.
Qed.

(** Every call but [reset] keeps the baselines that are set and does not
    shorten a buffer. *)
Lemma step_keeps s c :
  c <> Reset ->
  (forall p, baselineTyping s = Some p -> baselineTyping (step s c) = Some p)
  /\ (forall p, baselineMouse s = Some p -> baselineMouse (step s c) = Some p)
  /\ (length (keystrokeBuffer s) <= length (keystrokeBuffer (step s c)))%nat
  /\ (length (mouseBuffer s) <= length (mouseBuffer (step s c)))%nat.
Proof.
  intros Hc. destruct c as [e now|e now| |loaded|]; simpl; [| |done|done|done].
  - destruct (captureKeystroke_state e now s) as (Hb & Hbase & Hmb & Hbmo).
    cbv zeta in Hb, Hbase. rewrite Hb, Hbase, Hmb, Hbmo, shifted_length.
    clear Hb Hbase Hmb Hbmo.
    split; [by intros p ->|]. split; [done|]. split; [case_decide; lia|done].
  - destruct (captureMouseMovement_state e now s) as (Hb & Hbase & Hkb & Hbty).
    cbv zeta in Hb, Hbase. rewrite Hb, Hbase, Hkb, Hbty, shifted_length.
    clear Hb Hbase Hkb Hbty.
    split; [done|]. split; [by intros p ->|]. split; [done|case_decide; lia].
Qed.

(** Claim C10.  In every state the service reaches from its construction,
    the keystroke buffer holds at most 100 entries and the mouse buffer at
    most 200, and a baseline exists once its buffer holds 50 keystrokes or
    100 movements.  Every call other than [reset] leaves a baseline that
    is set as it is and leaves no buffer shorter than it found it; [reset]
    empties both buffers and clears both baselines. *)
Theorem buffers_bounded_baselines_kept (calls : list Call) :
  let s := run calls constructor in
  (length (keystrokeBuffer s) <= 100)%nat
  /\ (length (mouseBuffer s) <= 200)%nat
  /\ ((50 <= length (keystrokeBuffer s))%nat -> is_Some (baselineTyping s))
  /\ ((100 <= length (mouseBuffer s))%nat -> is_Some (baselineMouse s))
  /\ (forall c, c <> Reset ->
        (forall p, baselineTyping s = Some p -> baselineTyping (step s c) = Some p)
        /\ (forall p, baselineMouse s = Some p -> baselineMouse (step s c) = Some p)
        /\ (length (keystrokeBuffer s) <= length (keystrokeBuffer (step s c)))%nat
        /\ (length (mouseBuffer s) <= length (mouseBuffer (step s c)))%nat)
  /\ keystrokeBuffer (step s Reset) = []
  /\ mouseBuffer (step s Reset) = []
  /\ baselineTyping (step s Reset) = None
  /\ baselineMouse (step s Reset) = None.
Proof.
  intros s. destruct (bounded_run calls constructor bounded_constructor)
    as (Hk & Hm & Hbk & Hbm).
  split; [exact Hk|]. split; [exact Hm|]. split; [exact Hbk|].
  split; [exact Hbm|]. split; [intros c Hc; by apply step_keeps|].
  repeat split.
Qed.

(** The baseline is taken at the fiftieth keystroke and stays, while the
    buffer slides over the last hundred keystrokes and the change of
    rhythm is reported. *)
Example typing_baseline_kept :
  baselineTyping (run (typing (take 49 steady_then_fast)) constructor) = None
  /\ baselineTyping (run (typing (take 50 steady_then_fast)) constructor)
     = Some {| avgInterval := 100; stdDev := 0; wpm := 3000 |}
  /\ baselineTyping (run (typing steady_then_fast) constructor)
     = Some {| avgInterval := 100; stdDev := 0; wpm := 3000 |}
  /\ length (keystrokeBuffer (run (typing steady_then_fast) constructor)) = 100%nat
  /\ anomaly <$> (captureKeystroke (mkKeyEvent "a" None) 1700000005700
                    (run (typing steady_then_fast) constructor)).2
     = Some "typing_pattern_change".
Proof. repeat split; vm_compute; reflexivity. Qed.

End AdvancedProctoring.

(* ===================================================================== *)
(** * More on the behavioural service *)
(* ===================================================================== *)

Module Biometrics.

Import AdvancedProctoring.

(** The entry [captureKeystroke] pushes (advancedProctoring.js, lines
    77-82) and the one [captureMouseMovement] pushes (lines 118-123). *)
Definition keystroke_of (event : KeyEvent) (now : float) : Keystroke :=
  {| key := ev_key event; timestamp := now; duration := 0%float;
     pressure := or_else (ev_pressure event) 0 |}.

Definition movement_of (event : MouseEvent) (now : float) : Movement :=
  {| x := clientX event; y := clientY event; m_timestamp := now;
     type := ev_type event |}.

(** The keystrokes, and the movements, captured by a sequence of calls
    since its last [reset], oldest first. *)
Definition keystrokes_since_reset (calls : list Call) : list Keystroke :=
  foldl (fun acc c =>
           match c with
           | CaptureKeystroke event now => acc ++ [keystroke_of event now]
           | Reset => []
           | _ => acc
           end) [] calls.

Definition movements_since_reset (calls : list Call) : list Movement :=
  foldl (fun acc c =>
           match c with
           | CaptureMouseMovement event now => acc ++ [movement_of event now]
           | Reset => []
           | _ => acc
           end) [] calls.

(** The three indicators of [detectStressLevel] (advancedProctoring.js,
    lines 227-231). *)
Definition rapidTyping (s : Service) : bool :=
  bool_decide (50 < length (keystrokeBuffer s))%nat
  && match baselineTyping s with
     | Some p => PrimFloat.ltb 80 (wpm p)
     | None => false
     end.

Definition erraticMouse (s : Service) : bool :=
  bool_decide (100 < length (mouseBuffer s))%nat
  && match baselineMouse s with
     | Some p => PrimFloat.ltb 0.5 (m_stdDev p)
     | None => false
     end.

Definition indicators (s : Service) : list bool :=
  [detectExcessiveMovement s; rapidTyping s; erraticMouse s].

(** The object [detectStressLevel] returns (lines 237-255); a field that
    the object does not have reads as [None], or as [false] for the flag
    that callers test. *)
Record StressReport : Type := mkStressReport {
  report_stressLevel : string;
  report_score : float;
  report_recommendation : option string;
  report_shouldSuggestBreak : bool
}.

Definition stressReport (s : Service) : StressReport :=
  let stressScore :=
    (len (filter (fun v => v = true) (indicators s)) / 3)%float in
  if PrimFloat.ltb 0.7 stressScore then
    {| report_stressLevel := "high";
       report_score := stressScore;
       report_recommendation :=
         Some "Consider taking a 30-second mindfulness break";
       report_shouldSuggestBreak := true |}
  else if PrimFloat.ltb 0.4 stressScore then
    {| report_stressLevel := "medium";
       report_score := stressScore;
       report_recommendation := Some "Take deep breaths and stay calm";
       report_shouldSuggestBreak := false |}
  else
    {| report_stressLevel := "low";
       report_score := stressScore;
       report_recommendation := None;
       report_shouldSuggestBreak := false |}.

(** The service after fifty keystrokes 100 ms apart and seventy 10 ms
    apart, and the anomaly the next keystroke is answered with. *)
Definition after_fast_typing : Service :=
  run (typing steady_then_fast) constructor.

Definition rhythm_change : Anomaly :=
  {| anomaly := "typing_pattern_change";
     confidence := 0.45%float;
     message := "Abrupt change in typing pattern detected" |}.

(** A service with another value of [tfModel]. *)
Definition with_tfModel (t : bool) (s : Service) : Service :=
  {| keystrokeBuffer := keystrokeBuffer s;
     mouseBuffer := mouseBuffer s;
     baselineTyping := baselineTyping s;
     baselineMouse := baselineMouse s;
     stressLevel := stressLevel s;
     tfModel := t |}.

(** ** Floating-point facts *)

Lemma add_nan_l (v : float) : (PrimFloat.nan + v)%float = PrimFloat.nan.
Proof. apply Prim2SF_inj. rewrite add_spec. reflexivity. Qed.

Lemma div_nan_l (v : float) : (PrimFloat.nan / v)%float = PrimFloat.nan.
Proof. apply Prim2SF_inj. rewrite div_spec. reflexivity. Qed.

Lemma ltb_nan_r (v : float) : PrimFloat.ltb v PrimFloat.nan = false.
Proof.
  rewrite ltb_spec. simpl. unfold SFltb, SFcompare. by destruct (Prim2SF v).
Qed.

Lemma ltb_leb (v w : float) :
  PrimFloat.ltb v w = true -> PrimFloat.leb v w = true.
Proof.
  rewrite ltb_spec, leb_spec. unfold SFltb, SFleb.
  by destruct (SFcompare _ _) as [[]|].
Qed.

Lemma SFcompare_refl (f : spec_float) :
  f <> S754_nan -> SFcompare f f = Some Eq.
Proof.
  destruct f as [s|s| |s m e]; simpl; intros Hf; try done.
  - by destruct s.
  - rewrite Z.compare_refl.
    change (Pos.compare_cont Eq m m) with (Pos.compare m m).
    rewrite Pos.compare_refl. by destruct s.
Qed.

Lemma ltb_is_nan_r (v w : float) :
  PrimFloat.ltb v w = true -> PrimFloat.is_nan w = false.
Proof.
  rewrite ltb_spec. unfold PrimFloat.is_nan. rewrite FloatAxioms.eqb_spec.
  unfold SFltb, SFeqb. intros Hlt.
  rewrite SFcompare_refl; [reflexivity|].
  intros Hnan. rewrite Hnan in Hlt. by destruct (Prim2SF v).
Qed.

(** ** Sliding windows *)

Lemma tail_drop {A} (k : nat) (l : list A) : tail (drop k l) = drop (S k) l.
Proof.
  revert k. induction l as [|a l IH]; intros [|k]; simpl; done.
Qed.

Lemma slice_last_snoc {A} (n : nat) (l : list A) (a : A) :
  (0 < n)%nat ->
  slice_last n (l ++ [a])
  = (let pushed := slice_last n l ++ [a] in
     if decide (n < length pushed)%nat then tail pushed else pushed).
Proof.
  intros Hn. cbv zeta. unfold slice_last.
  rewrite !length_app, length_drop. simpl.
  destruct (decide (length l < n)%nat) as [Hlt|Hge].
  - replace (length l - n)%nat with 0%nat by lia.
    replace (length l + 1 - n)%nat with 0%nat by lia.
    rewrite !drop_0. by rewrite decide_False by lia.
  - rewrite decide_True by lia.
    replace (length l + 1 - n)%nat with (S (length l - n)) by lia.
    rewrite drop_app_le by lia. rewrite <- tail_drop.
    destruct (drop (length l - n) l) as [|b d] eqn:Hd; [|reflexivity].
    apply (f_equal length) in Hd. rewrite length_drop in Hd. simpl in Hd. lia.
Qed.

Lemma run_snoc calls c s : run (calls ++ [c]) s = step (run calls s) c.
Proof. unfold run. by rewrite foldl_snoc. Qed.

Lemma keystrokes_since_reset_snoc calls c :
  keystrokes_since_reset (calls ++ [c])
  = match c with
    | CaptureKeystroke event now =>
        keystrokes_since_reset calls ++ [keystroke_of event now]
    | Reset => []
    | _ => keystrokes_since_reset calls
    end.
Proof. unfold keystrokes_since_reset. by rewrite foldl_snoc. Qed.

Lemma movements_since_reset_snoc calls c :
  movements_since_reset (calls ++ [c])
  = match c with
    | CaptureMouseMovement event now =>
        movements_since_reset calls ++ [movement_of event now]
    | Reset => []
    | _ => movements_since_reset calls
    end.
Proof. unfold movements_since_reset. by rewrite foldl_snoc. Qed.

Lemma buffers_windows (calls : list Call) :
  keystrokeBuffer (run calls constructor)
  = slice_last 100 (keystrokes_since_reset calls)
  /\ mouseBuffer (run calls constructor)
     = slice_last 200 (movements_since_reset calls).
Proof.
  induction calls as [|c calls [IHk IHm]] using rev_ind; [done|].
  rewrite run_snoc, keystrokes_since_reset_snoc, movements_since_reset_snoc.
  destruct c as [e now|e now| |loaded|]; simpl; try done.
  - destruct (captureKeystroke_state e now (run calls constructor))
      as (Hb & _ & Hmb & _). cbv zeta in Hb.
    rewrite Hb, Hmb, IHk, IHm. split; [|done].
    by rewrite slice_last_snoc by lia.
  - destruct (captureMouseMovement_state e now (run calls constructor))
      as (Hb & _ & Hkb & _). cbv zeta in Hb.
    rewrite Hb, Hkb, IHk, IHm. split; [done|].
    by rewrite slice_last_snoc by lia.
Qed.

(** The keystroke buffer is the window of the last 100 keystrokes captured
    since the last [reset], oldest first, and the mouse buffer the window
    of the last 200 movements. *)
Theorem buffers_are_sliding_windows (calls : list Call) :
  keystrokeBuffer (run calls constructor)
  = slice_last 100 (keystrokes_since_reset calls)
  /\ mouseBuffer (run calls constructor)
     = slice_last 200 (movements_since_reset calls).
Proof. apply buffers_windows. Qed.

Lemma slice_last_short {A} (n : nat) (l : list A) :
  (length l <= n)%nat -> slice_last n l = l.
Proof.
  intros H. unfold slice_last.
  replace (length l - n)%nat with 0%nat by lia. apply drop_0.
Qed.

(** ** Baselines *)

(** The typing baseline is the profile of the first 50 keystrokes captured
    since the last [reset], and does not exist before the fiftieth; the
    mouse baseline is the profile of the first 100 movements. *)
Theorem baselines_of_first_samples (calls : list Call) :
  baselineTyping (run calls constructor)
  = (if decide (50 <= length (keystrokes_since_reset calls))%nat
     then calculateTypingProfile (take 50 (keystrokes_since_reset calls))
     else None)
  /\ baselineMouse (run calls constructor)
     = (if decide (100 <= length (movements_since_reset calls))%nat
        then calculateMouseProfile (take 100 (movements_since_reset calls))
        else None).
Proof.
  induction calls as [|c calls [IHk IHm]] using rev_ind; [done|].
  destruct (buffers_windows calls) as [Hkb Hmb].
  rewrite run_snoc, keystrokes_since_reset_snoc, movements_since_reset_snoc.
  destruct c as [e now|e now| |loaded|]; simpl; try done.
  - destruct (captureKeystroke_state e now (run calls constructor))
      as (_ & Hbase & _ & Hbm). cbv zeta in Hbase.
    rewrite Hbase, Hbm, IHk, IHm, Hkb. clear Hbase Hbm IHk IHm Hkb Hmb.
    split; [|done]. set (ks := keystrokes_since_reset calls).
    rewrite <- slice_last_snoc by lia. rewrite length_app. simpl.
    destruct (decide (50 <= length ks)%nat) as [H50|H50].
    + rewrite (decide_True (P := (50 <= length ks + 1)%nat)) by lia.
      rewrite take_app_le by lia.
      destruct (calculateTypingProfile_is_Some (take 50 ks)) as [p ->];
        [rewrite length_take; lia | reflexivity].
    + rewrite slice_last_short by (rewrite length_app; simpl; lia).
      rewrite length_app. simpl.
      destruct (decide (50 <= length ks + 1)%nat) as [H|H]; [|reflexivity].
      f_equal. rewrite take_ge; [reflexivity|]. rewrite length_app. simpl. lia.
  - destruct (captureMouseMovement_state e now (run calls constructor))
      as (_ & Hbase & _ & Hbt). cbv zeta in Hbase.
    rewrite Hbase, Hbt, IHk, IHm, Hmb. clear Hbase Hbt IHk IHm Hkb Hmb.
    split; [done|]. set (ms := movements_since_reset calls).
    rewrite <- slice_last_snoc by lia. rewrite length_app. simpl.
    destruct (decide (100 <= length ms)%nat) as [H100|H100].
    + rewrite (decide_True (P := (100 <= length ms + 1)%nat)) by lia.
      rewrite take_app_le by lia.
      destruct (calculateMouseProfile_is_Some (take 100 ms)) as [p ->];
        [rewrite length_take; lia | reflexivity].
    + rewrite slice_last_short by (rewrite length_app; simpl; lia).
      rewrite length_app. simpl.
      destruct (decide (100 <= length ms + 1)%nat) as [H|H]; [|reflexivity].
      f_equal. rewrite take_ge; [reflexivity|]. rewrite length_app. simpl. lia.
Qed.

(** ** Anomalies *)

(** A mouse profile has no [avgInterval], so the deviation that
    [compareProfiles] computes from two mouse profiles is NaN and passes
    no threshold. *)
Lemma compareProfiles_mouse (p c : MouseProfile) :
  compareProfiles (Some (mouse_view p)) (Some (mouse_view c)) = PrimFloat.nan.
Proof.
  unfold compareProfiles. simpl.
  change (PrimFloat.abs (PrimFloat.nan - PrimFloat.nan) / PrimFloat.nan)%float
    with PrimFloat.nan.
  by rewrite add_nan_l, div_nan_l.
Qed.

Lemma mouse_deviation_passes_nothing (p : MouseProfile)
    (cur : option MouseProfile) (threshold : float) :
  PrimFloat.ltb threshold 0 = false ->
  PrimFloat.ltb threshold
    (compareProfiles (Some (mouse_view p)) (mouse_view <$> cur)) = false.
Proof.
  intros H0. destruct cur as [c|].
  - change (mouse_view <$> Some c) with (Some (mouse_view c)).
    rewrite compareProfiles_mouse. apply ltb_nan_r.
  - exact H0.
Qed.

(** [captureMouseMovement] never reports an anomaly, whatever the
    movements and whatever the state of the service. *)
Theorem mouse_anomaly_never_reported (event : MouseEvent) (now : float)
    (s : Service) :
  (captureMouseMovement event now s).2 = None.
Proof.
  unfold captureMouseMovement. cbv zeta.
  repeat case_match; simpl; try reflexivity; exfalso.
  all: match goal with
       | H : PrimFloat.ltb _ (compareProfiles _ _) = true |- _ =>
           rewrite mouse_deviation_passes_nothing in H by reflexivity;
           discriminate
       end.
Qed.

Lemma math_min_bounds (deviation : float) :
  PrimFloat.ltb 0.35 deviation = true ->
  PrimFloat.ltb 0.35 (math_min deviation 0.975) = true
  /\ PrimFloat.leb (math_min deviation 0.975) 0.975 = true.
Proof.
  intros H. unfold math_min. rewrite (ltb_is_nan_r _ _ H).
  change (PrimFloat.is_nan 0.975) with false. cbn [orb].
  destruct (PrimFloat.ltb deviation 0.975) eqn:Hlt.
  - split; [exact H | by apply ltb_leb].
  - by split.
Qed.

(** An anomaly that [captureKeystroke] reports is a typing pattern change
    whose confidence lies above 0.35 and does not exceed 0.975. *)
Theorem typing_anomaly_confidence (event : KeyEvent) (now : float)
    (s : Service) (a : Anomaly) :
  (captureKeystroke event now s).2 = Some a ->
  anomaly a = "typing_pattern_change"
  /\ PrimFloat.ltb 0.35 (confidence a) = true
  /\ PrimFloat.leb (confidence a) 0.975 = true.
Proof.
  unfold captureKeystroke. cbv zeta.
  repeat case_match; cbn [snd]; try discriminate.
  all: intros [= <-]; split; [reflexivity|]; apply math_min_bounds;
    match goal with H : PrimFloat.ltb _ _ = true |- _ => exact H end.
Qed.

Lemma typing_anomaly_confidence_witness :
  (captureKeystroke (mkKeyEvent "a" None) 1700000005700 after_fast_typing).2
  = Some rhythm_change
  /\ PrimFloat.ltb 0.35 (confidence rhythm_change) = true
  /\ PrimFloat.leb (confidence rhythm_change) 0.975 = true.
Proof.
  assert ((captureKeystroke (mkKeyEvent "a" None) 1700000005700
             after_fast_typing).2 = Some rhythm_change) as H.
  { vm_compute. reflexivity. }
  split; [exact H|].
  exact (proj2 (typing_anomaly_confidence _ _ _ _ H)).
Defined.

(** ** Stress *)

(** [detectStressLevel] scores the share of its three indicators that
    hold: it reports high, and suggests a break, exactly when all three
    hold, medium when exactly two hold and low otherwise, and the score it
    returns is the one it stores. *)
Theorem stress_level_counts_indicators (s : Service) :
  let n := length (filter (fun v => v = true) (indicators s)) in
  report_stressLevel (stressReport s)
  = (if decide (n = 3%nat) then "high"
     else if decide (n = 2%nat) then "medium" else "low")
  /\ report_shouldSuggestBreak (stressReport s) = bool_decide (n = 3%nat)
  /\ report_score (stressReport s) = stressLevel (detectStressLevel s)
  /\ keystrokeBuffer (detectStressLevel s) = keystrokeBuffer s
  /\ mouseBuffer (detectStressLevel s) = mouseBuffer s.
Proof.
  unfold stressReport, detectStressLevel, indicators.
  fold (rapidTyping s). fold (erraticMouse s).
  destruct (detectExcessiveMovement s), (rapidTyping s), (erraticMouse s);
    vm_compute; repeat split.
Qed.

(** ** Reset *)

Lemma step_with_tfModel t s c :
  exists t', step (with_tfModel t s) c = with_tfModel t' (step s c).
Proof.
  destruct c as [e now|e now| |loaded|]; simpl.
  - exists t. unfold captureKeystroke, with_tfModel. cbv zeta. simpl.
    by repeat case_match.
  - exists t. unfold captureMouseMovement, with_tfModel. cbv zeta. simpl.
    by repeat case_match.
  - by exists t.
  - by exists (if loaded then true else t).
  - by exists t.
Qed.

Lemma run_with_tfModel calls t s :
  exists t', run calls (with_tfModel t s) = with_tfModel t' (run calls s).
Proof.
  revert t s. induction calls as [|c calls IH]; intros t s; simpl; [by exists t|].
  destruct (step_with_tfModel t s c) as [t1 ->]. apply IH.
Qed.

(** After [reset] the service behaves as a newly constructed one: the
    same calls lead to the same buffers, baselines and stress level. *)
Theorem reset_restarts (calls : list Call) (s : Service) :
  keystrokeBuffer (run calls (reset s)) = keystrokeBuffer (run calls constructor)
  /\ mouseBuffer (run calls (reset s)) = mouseBuffer (run calls constructor)
  /\ baselineTyping (run calls (reset s)) = baselineTyping (run calls constructor)
  /\ baselineMouse (run calls (reset s)) = baselineMouse (run calls constructor)
  /\ stressLevel (run calls (reset s)) = stressLevel (run calls constructor).
Proof.
  change (reset s) with (with_tfModel (tfModel s) constructor).
  destruct (run_with_tfModel calls (tfModel s) constructor) as [t ->].
  by repeat split.
Qed.

End Biometrics.

(* ===================================================================== *)
(** * The face monitor over a run of frames *)
(* ===================================================================== *)

Module FaceFrames.

Import FaceMonitor.

(** Times that lie at least [w] apart, each from the one before it. *)
Definition spaced (w : Z) (times : list Z) : Prop :=
  forall i a b, times !! i = Some a -> times !! S i = Some b -> w <= b - a.

(** One result of the face detector: the reading of [Date.now()], the
    text of [new Date().toISOString()] and the number of detections. *)
Record Frame : Type := mkFrame {
  frame_now : Z;
  frame_stamp : string;
  faces : nat
}.

(** The monitor handles a frame ([onFaceDetectionResults],
    FaceMonitor.jsx, lines 119-134); the events passed to [onEvent] are
    collected with the frame that caused them. *)
Definition on_frame (st : gmap string Z * list (Frame * Event)) (f : Frame)
    : gmap string Z * list (Frame * Event) :=
  let r := onFaceDetectionResults st.1 (frame_now f) (frame_stamp f) (faces f) in
  (r.1, match r.2 with
        | Some ev => st.2 ++ [(f, ev)]
        | None => st.2
        end).

(** A run of frames on a monitor whose ref holds [lastEventTime]: the
    empty object on a newly mounted monitor. *)
Definition run_frames (lastEventTime : gmap string Z) (frames : list Frame)
    : gmap string Z * list (Frame * Event) :=
  foldl on_frame (lastEventTime, []) frames.

(** The times at which events of type [e] were passed on. *)
Definition emission_times (e : string) (out : list (Frame * Event)) : list Z :=
  (fun fe => frame_now fe.1) <$> filter (fun fe => event_type fe.2 = e) out.

(** What an event says about the frame that caused it. *)
Definition reflects (f : Frame) (ev : Event) : Prop :=
  match faces f with
  | 0%nat => event_type ev = "no_face"
             /\ metadata ev !! "confidence_score" = Some (JNum 0.9%float)
  | 1%nat => False
  | S (S _) => event_type ev = "multiple_faces"
               /\ metadata ev !! "confidence_score" = Some (JNum 0.95%float)
               /\ metadata ev !! "face_count"
                  = Some (JNum (Js.float_of_nat (faces f)))
  end.

(** Frames a second apart: no face, no face, three faces, one face,
    no face. *)
Definition demo_frames : list Frame :=
  [mkFrame 1700000000000 "s0" 0; mkFrame 1700000001000 "s1" 0;
   mkFrame 1700000002000 "s2" 3; mkFrame 1700000003000 "s3" 1;
   mkFrame 1700000004000 "s4" 0].

Lemma spaced_nil w : spaced w [].
Proof. intros i a b H. by rewrite lookup_nil in H. Qed.

Lemma spaced_snoc w times b :
  spaced w times ->
  (forall a, last times = Some a -> w <= b - a) ->
  spaced w (times ++ [b]).
Proof.
  intros Hsp Hlast i x y Hx Hy.
  destruct (decide (S i < length times)%nat) as [Hlt|Hge].
  - rewrite lookup_app_l in Hx by lia. rewrite lookup_app_l in Hy by lia.
    by eapply Hsp.
  - pose proof (lookup_lt_Some _ _ _ Hy) as Hlen.
    rewrite length_app in Hlen. simpl in Hlen.
    assert (S i = length times) as Hi by lia.
    rewrite lookup_app_l in Hx by lia.
    rewrite lookup_app_r in Hy by lia.
    replace (S i - length times)%nat with 0%nat in Hy by lia.
    injection Hy as <-. apply Hlast.
    rewrite last_lookup, <- Hi. exact Hx.
Qed.

(** A frame is dropped, or its event is passed on and the time of the
    frame is recorded for the type of the event. *)
Lemma onFaceDetectionResults_cases m now stamp n :
  onFaceDetectionResults m now stamp n = (m, None)
  \/ exists ev,
       onFaceDetectionResults m now stamp n
       = (<[event_type ev := now]> m, Some ev)
       /\ EVENT_THROTTLE <= now - default 0 (m !! event_type ev)
       /\ reflects (mkFrame now stamp n) ev.
Proof.
  unfold onFaceDetectionResults, triggerEvent, reflects. simpl.
  destruct n as [|[|n]]; simpl; [| by left |].
  - case_decide; [by left|]. right. eexists (mkEvent _ _ _).
    split; [reflexivity|]. simpl.
    split; [lia|]. split; [reflexivity|].
    rewrite lookup_union_r by apply lookup_empty. reflexivity.
  - case_decide; [by left|]. right. eexists (mkEvent _ _ _).
    split; [reflexivity|]. simpl.
    split; [lia|]. split; [reflexivity|]. split.
    + rewrite lookup_union_r by (by apply lookup_singleton_ne). reflexivity.
    + apply lookup_union_Some_l. apply lookup_singleton_eq.
Qed.

Lemma run_frames_snoc m0 frames f :
  run_frames m0 (frames ++ [f]) = on_frame (run_frames m0 frames) f.
Proof. unfold run_frames. by rewrite foldl_snoc. Qed.

Lemma emission_times_snoc e out f ev :
  emission_times e (out ++ [(f, ev)])
  = emission_times e out
    ++ (if decide (event_type ev = e) then [frame_now f] else []).
Proof.
  unfold emission_times. rewrite filter_app, fmap_app. f_equal.
  rewrite filter_cons. simpl. by case_decide.
Qed.

(** The state of the monitor after a run: for each event type the time of
    the last event passed on. *)
Lemma run_frames_invariant m0 frames :
  let st := run_frames m0 frames in
  (forall e, st.1 !! e = match last (emission_times e st.2) with
                         | Some t => Some t
                         | None => m0 !! e
                         end)
  /\ (forall e, spaced EVENT_THROTTLE (emission_times e st.2))
  /\ (forall f ev, (f, ev) ∈ st.2 -> f ∈ frames /\ reflects f ev).
Proof.
  induction frames as [|f frames IH] using rev_ind.
  { split; [done|]. split; [intros e; apply spaced_nil|].
    intros f ev H. by apply not_elem_of_nil in H. }
  cbv zeta in IH |- *. rewrite run_frames_snoc.
  destruct (run_frames m0 frames) as [m out].
  destruct IH as (Hlast & Hsp & Hrefl).
  simpl in Hlast, Hsp, Hrefl. unfold on_frame. simpl.
  destruct (onFaceDetectionResults_cases m (frame_now f) (frame_stamp f) (faces f))
    as [->|(ev & -> & Hthr & Hev)]; simpl.
  - split; [exact Hlast|]. split; [exact Hsp|].
    intros f' ev' Hin. destruct (Hrefl f' ev' Hin) as [Hf Hr].
    split; [|exact Hr]. apply elem_of_app. by left.
  - split; [|split].
    + intros e. rewrite emission_times_snoc. case_decide as He.
      * subst e. rewrite lookup_insert_eq. by rewrite last_snoc.
      * rewrite lookup_insert_ne by done. rewrite app_nil_r. apply Hlast.
    + intros e. rewrite emission_times_snoc. case_decide as He.
      * subst e. apply spaced_snoc; [apply Hsp|].
        intros a Ha. rewrite Hlast, Ha in Hthr. exact Hthr.
      * rewrite app_nil_r. apply Hsp.
    + intros f' ev' Hin. apply elem_of_app in Hin as [Hin|Hin].
      * destruct (Hrefl f' ev' Hin) as [Hf Hr].
        split; [|exact Hr]. apply elem_of_app. by left.
      * apply list_elem_of_singleton in Hin. injection Hin as -> ->.
        split; [apply elem_of_app; right; by apply list_elem_of_singleton|].
        by destruct f.
Qed.

(** Over any run of frames, whatever the ref of the monitor held before
    and whatever the clock reads, two successive events of one type are
    at least 2000 ms apart; every event comes from a frame of the run, a
    no_face event from a frame without a face and a multiple_faces event,
    which carries the number of faces, from a frame with several; a frame
    with exactly one face causes no event. *)
Theorem face_events_spaced_and_faithful
    (lastEventTime : gmap string Z) (frames : list Frame) :
  (forall e, spaced 2000 (emission_times e (run_frames lastEventTime frames).2))
  /\ (forall f ev, (f, ev) ∈ (run_frames lastEventTime frames).2 ->
        f ∈ frames /\ faces f <> 1%nat /\ reflects f ev)
  /\ (length (run_frames lastEventTime frames).2 <= length frames)%nat.
Proof.
  destruct (run_frames_invariant lastEventTime frames) as (_ & Hsp & Hrefl).
  split; [exact Hsp|]. split.
  - intros f ev Hin. destruct (Hrefl f ev Hin) as [Hf Hr].
    split; [exact Hf|]. split; [|exact Hr].
    intros H1. unfold reflects in Hr. by rewrite H1 in Hr.
  - clear. induction frames as [|f frames IH] using rev_ind; [done|].
    rewrite run_frames_snoc, length_app. unfold on_frame. simpl.
    destruct (onFaceDetectionResults _ _ _ _).2; [rewrite length_app|]; simpl; lia.
Qed.

(** The five frames of [demo_frames] cause three events. *)
Example demo_frames_events :
  emission_times "no_face" (run_frames ∅ demo_frames).2
  = [1700000000000; 1700000004000]
  /\ emission_times "multiple_faces" (run_frames ∅ demo_frames).2
     = [1700000002000].
Proof. split; vm_compute; reflexivity. Qed.

End FaceFrames.

(* ===================================================================== *)
(** * The voice monitor (VoiceMonitor.jsx) *)
(* ===================================================================== *)

Module VoiceMonitor.

(** A value of the metadata object.  A number computed from readings of
    the clock is kept as the integer it is. *)
Inductive JsValue : Type :=
  | JNum (x : float)
  | JMillis (t : Z)
  | JStr (s : string).

(** The object handed to [onEvent]. *)
Record Event : Type := mkEvent {
  event_type : string;
  description : string;
  metadata : gmap string JsValue
}.

(** [triggerEvent] (VoiceMonitor.jsx, lines 105-124): [lastEventTime] is
    [lastEventTimeRef.current], [now] the reading of [Date.now()] and
    [stamp] the text of [new Date().toISOString()].  The entries of
    [extraMetadata] are spread last. *)
Definition triggerEvent (lastEventTime : gmap string Z) (now : Z) (stamp : string)
    (eventType description : string) (confidence : float)
    (extraMetadata : gmap string JsValue)
    : gmap string Z * option Event :=
  let lastTime := default 0 (lastEventTime !! eventType) in
  if decide (now - lastTime < 2000) then (lastEventTime, None)
  else
    (<[eventType := now]> lastEventTime,
     Some {| event_type := eventType;
             description := description;
             metadata :=
               extraMetadata
               ∪ {[ "confidence_score" := JNum confidence;
                    "timestamp" := JStr stamp;
                    "source" := JStr "web_audio_api" ]} |}).

(** What the clock reads inside one call of [triggerEvent]. *)
Record Clock : Type := mkClock {
  clock_now : Z;
  clock_stamp : string
}.

(** One animation frame: the bytes that [getByteFrequencyData] wrote to
    [dataArray], the reading of [Date.now()] in [analyze] (line 68), and
    the readings of the clock in the calls of [triggerEvent] for talking
    and for a spike, should they happen. *)
Record Frame : Type := mkFrame {
  f_data : list nat;
  f_now : Z;
  f_talk : Clock;
  f_spike : Clock
}.

(** [dataArray.reduce((a, b) => a + b)] (line 63).  [reduce] without an
    initial value throws on an empty array; [dataArray] has
    [frequencyBinCount] entries, 128 for the [fftSize] of line 34. *)
Definition reduce_add (dataArray : list nat) : float :=
  match dataArray with
  | [] => PrimFloat.nan
  | d :: rest =>
      foldl (fun a b => (a + Js.float_of_nat b)%float) (Js.float_of_nat d) rest
  end.

(** [normalizedLevel] (lines 63-64); [bufferLength] is the length of
    [dataArray] (line 52). *)
Definition normalizedLevel (dataArray : list nat) : float :=
  let bufferLength := Js.float_of_nat (length dataArray) in
  let average := (reduce_add dataArray / bufferLength)%float in
  AdvancedProctoring.math_min 100 (average / 255 * 100)%float.

(** The variables that [analyze] closes over: [talkingStartTime] and
    [lastSpikeTime] of [startAnalysis], [null] as [None], and
    [lastEventTimeRef.current]. *)
Record State : Type := mkState {
  talkingStartTime : option Z;
  lastSpikeTime : option Z;
  lastEventTime : gmap string Z
}.

(** [startAnalysis] (lines 50-55) declares both times as [null]; the
    object of the ref is the one of the mounted component. *)
Definition startAnalysis (lastEventTime : gmap string Z) : State :=
  mkState None None lastEventTime.

(** The truth value of a time or [null]: 0 is falsy. *)
Definition truthy (t : option Z) : bool :=
  match t with
  | Some t => negb (bool_decide (t = 0))
  | None => false
  end.

(** Lines 70-87 of [analyze]: the new [talkingStartTime], the object of
    the ref and the events sent. *)
Definition detect_talking (s : State) (f : Frame) (normalizedLevel : float)
    : option Z * gmap string Z * list Event :=
  let now := f_now f in
  if PrimFloat.ltb 20 normalizedLevel then
    if negb (truthy (talkingStartTime s)) then
      (Some now, lastEventTime s, [])
    else if decide (3000 < now - default 0 (talkingStartTime s)) then
      let r := triggerEvent (lastEventTime s) (clock_now (f_talk f))
                 (clock_stamp (f_talk f))
                 "voice_detection" "Continuous talking detected" 0.8%float
                 {[ "audio_level" := JNum normalizedLevel;
                    "duration" := JMillis (now - default 0 (talkingStartTime s)) ]} in
      (talkingStartTime s, r.1, option_list r.2)
    else (talkingStartTime s, lastEventTime s, [])
  else if truthy (talkingStartTime s) then (None, lastEventTime s, [])
  else (talkingStartTime s, lastEventTime s, []).

(** Lines 89-97 of [analyze], on the object of the ref as the lines
    before left it. *)
Definition detect_spike (s : State) (f : Frame) (normalizedLevel : float)
    (lastEventTime : gmap string Z)
    : option Z * gmap string Z * list Event :=
  let now := f_now f in
  if PrimFloat.ltb 50 normalizedLevel then
    if (negb (truthy (lastSpikeTime s))
        || bool_decide (5000 < now - default 0 (lastSpikeTime s)))%bool then
      let r := triggerEvent lastEventTime (clock_now (f_spike f))
                 (clock_stamp (f_spike f))
                 "voice_detection" "High background noise detected" 0.7%float
                 {[ "audio_level" := JNum normalizedLevel ]} in
      (Some now, r.1, option_list r.2)
    else (lastSpikeTime s, lastEventTime, [])
  else (lastSpikeTime s, lastEventTime, []).

(** [analyze] (lines 57-100) for a frame with the analyser in place: the
    variables after the frame and the events passed to [onEvent], in
    order. *)
Definition analyze (s : State) (f : Frame) : State * list Event :=
  let level := normalizedLevel (f_data f) in
  let t := detect_talking s f level in
  let k := detect_spike s f level t.1.2 in
  (mkState t.1.1 k.1.1 k.1.2, t.2 ++ k.2).

(** The frames of a list, one after the other. *)
Definition run (frames : list Frame) (s : State) : State :=
  foldl (fun s f => (analyze s f).1) s frames.

(** The level of the frame is above the talking threshold. *)
Definition loud (f : Frame) : Prop :=
  PrimFloat.ltb 20 (normalizedLevel (f_data f)) = true.

(** A frame of 128 bins that all read [b], analysed at [now]; the calls
    of [triggerEvent] read the clock one and two milliseconds later. *)
Definition uniform_frame (b : nat) (now : Z) : Frame :=
  mkFrame (replicate 128 b) now (mkClock (now + 1) "t") (mkClock (now + 2) "s").

(** The alert of [uniform_frame 100 1700000003400] after talking began at
    [1700000000000]. *)
Definition demo_talking_alert : Event :=
  {| event_type := "voice_detection";
     description := "Continuous talking detected";
     metadata :=
       {[ "audio_level" := JNum (normalizedLevel (replicate 128 100%nat));
          "duration" := JMillis 3400 ]}
       ∪ {[ "confidence_score" := JNum 0.8%float;
            "timestamp" := JStr "t";
            "source" := JStr "web_audio_api" ]} |}.

Lemma ltb_50_20 (l : float) :
  PrimFloat.ltb 50 l = true -> PrimFloat.ltb 20 l = true.
Proof.
  rewrite !ltb_spec.
  assert (Prim2SF 50 = S754_finite false 7036874417766400 (-47)) as ->
    by (vm_compute; reflexivity).
  assert (Prim2SF 20 = S754_finite false 5629499534213120 (-48)) as ->
    by (vm_compute; reflexivity).
  unfold SFltb, SFcompare.
  destruct (Prim2SF l) as [s|s| |s m e]; try (destruct s; simpl; congruence);
    [congruence|].
  destruct s; [congruence|].
  destruct (Z.compare_spec (-47) e) as [<-|Hlt|Hgt]; try congruence.
  - simpl. congruence.
  - destruct (Z.compare_spec (-48) e); try lia; congruence.
Qed.

Lemma voice_triggerEvent_length m now stamp e d c x :
  (length (option_list (triggerEvent m now stamp e d c x).2) <= 1)%nat.
Proof. unfold triggerEvent. case_decide; simpl; lia. Qed.

(** [talkingStartTime] after a frame. *)
Lemma analyze_talkingStartTime s f :
  talkingStartTime (analyze s f).1
  = if PrimFloat.ltb 20 (normalizedLevel (f_data f)) then
      if truthy (talkingStartTime s) then talkingStartTime s else Some (f_now f)
    else if truthy (talkingStartTime s) then None else talkingStartTime s.
Proof.
  unfold analyze, detect_talking. simpl.
  destruct (PrimFloat.ltb 20 _); destruct (truthy _); simpl; try done.
  by case_decide.
Qed.

(** A talking alert comes from a loud frame more than 3000 ms after the
    time held in [talkingStartTime]. *)
Lemma talking_alert_origin s f ev :
  ev ∈ (analyze s f).2 ->
  description ev = "Continuous talking detected" ->
  loud f
  /\ exists start, talkingStartTime s = Some start /\ start <> 0
       /\ 3000 < f_now f - start
       /\ metadata ev !! "duration" = Some (JMillis (f_now f - start)).
Proof.
  unfold analyze, loud. simpl. intros Hin Hd.
  apply elem_of_app in Hin as [Hin|Hin].
  - unfold detect_talking in Hin.
    destruct (PrimFloat.ltb 20 _) eqn:Hl.
    2:{ destruct (truthy _); simpl in Hin; by apply not_elem_of_nil in Hin. }
    split; [done|].
    destruct (talkingStartTime s) as [start|] eqn:Ht; simpl in Hin.
    2:{ by apply not_elem_of_nil in Hin. }
    case_bool_decide as H0; simpl in Hin.
    { by apply not_elem_of_nil in Hin. }
    case_decide as H3; simpl in Hin.
    2:{ by apply not_elem_of_nil in Hin. }
    exists start. split; [done|]. split; [done|]. split; [done|].
    unfold triggerEvent in Hin. case_decide; simpl in Hin.
    { by apply not_elem_of_nil in Hin. }
    apply list_elem_of_singleton in Hin. subst ev. simpl.
    apply lookup_union_Some_l. rewrite lookup_insert_ne by done.
    apply lookup_singleton_eq.
  - unfold detect_spike in Hin.
    destruct (PrimFloat.ltb 50 _).
    2:{ by apply not_elem_of_nil in Hin. }
    destruct (_ || _)%bool; simpl in Hin.
    2:{ by apply not_elem_of_nil in Hin. }
    unfold triggerEvent in Hin. case_decide; simpl in Hin.
    { by apply not_elem_of_nil in Hin. }
    apply list_elem_of_singleton in Hin. subst ev. simpl in Hd. discriminate.
Qed.

Lemma voice_run_snoc frames f s :
  run (frames ++ [f]) s = (analyze (run frames s) f).1.
Proof. unfold run. by rewrite foldl_snoc. Qed.

(** A time held in [talkingStartTime] is the time of a frame of the run
    from which on every frame was loud. *)
Lemma talkingStartTime_invariant frames m t :
  talkingStartTime (run frames (startAnalysis m)) = Some t -> t <> 0 ->
  exists before start rest,
    frames = before ++ start :: rest
    /\ Forall loud (start :: rest) /\ f_now start = t.
Proof.
  revert t. induction frames as [|f frames IH] using rev_ind; intros t Ht Ht0.
  { discriminate. }
  rewrite voice_run_snoc, analyze_talkingStartTime in Ht.
  destruct (PrimFloat.ltb 20 _) eqn:Hl.
  - destruct (truthy _) eqn:Htr.
    + destruct (IH t Ht Ht0) as (before & start & rest & -> & Hloud & Hnow).
      exists before, start, (rest ++ [f]). split; [by rewrite <- app_assoc|].
      split; [|done]. rewrite app_comm_cons. apply Forall_app. split; [done|].
      by apply Forall_singleton.
    + injection Ht as <-. exists frames, f, []. split; [done|].
      split; [|done]. by apply Forall_singleton.
  - destruct (truthy _) eqn:Htr; [discriminate|].
    rewrite Ht in Htr. simpl in Htr. by case_bool_decide.
Qed.

(** Whenever the voice monitor sends a Continuous talking detected alert,
    the level was above 20 in every frame since some earlier frame of the
    run that lies more than 3000 ms back, this frame included, and the
    duration in the alert is the time between the two frames. *)
Theorem talking_alert_needs_sustained_sound
    (m : gmap string Z) (frames : list Frame) (f : Frame) (ev : Event)
    (Hev : ev ∈ (analyze (run frames (startAnalysis m)) f).2)
    (Htalk : description ev = "Continuous talking detected") :
  exists before start rest,
    frames = before ++ start :: rest
    /\ Forall loud (start :: rest ++ [f])
    /\ 3000 < f_now f - f_now start
    /\ metadata ev !! "duration" = Some (JMillis (f_now f - f_now start)).
Proof.
  destruct (talking_alert_origin _ _ _ Hev Htalk)
    as (Hloud & t & Ht & Ht0 & H3 & Hd).
  destruct (talkingStartTime_invariant _ _ _ Ht Ht0)
    as (before & start & rest & -> & Hall & <-).
  exists before, start, rest. split; [done|]. split; [|done].
  rewrite app_comm_cons. apply Forall_app. split; [done|].
  by apply Forall_singleton.
Qed.

Lemma talking_alert_needs_sustained_sound_witness :
  (analyze (run [uniform_frame 100 1700000000000; uniform_frame 100 1700000001700]
                (startAnalysis ∅))
           (uniform_frame 100 1700000003400)).2 = [demo_talking_alert]
  /\ exists before start rest,
       [uniform_frame 100 1700000000000; uniform_frame 100 1700000001700]
       = before ++ start :: rest
       /\ Forall loud (start :: rest ++ [uniform_frame 100 1700000003400])
       /\ 3000 < 1700000003400 - f_now start
       /\ metadata demo_talking_alert !! "duration"
          = Some (JMillis (1700000003400 - f_now start)).
Proof.
  assert ((analyze (run [uniform_frame 100 1700000000000;
                         uniform_frame 100 1700000001700] (startAnalysis ∅))
             (uniform_frame 100 1700000003400)).2 = [demo_talking_alert]) as H.
  { vm_compute. reflexivity. }
  split; [exact H|].
  refine (talking_alert_needs_sustained_sound ∅
            [uniform_frame 100 1700000000000; uniform_frame 100 1700000001700]
            (uniform_frame 100 1700000003400) demo_talking_alert _ _).
  - rewrite H. by apply list_elem_of_singleton.
  - reflexivity.
Defined.

(** A frame whose level is not above 20 sends no event, whatever the
    state: it ends a talking episode and leaves the time of the last
    spike and the times of the throttle as they were. *)
Theorem quiet_frame_sends_nothing (s : State) (f : Frame)
    (Hquiet : PrimFloat.ltb 20 (normalizedLevel (f_data f)) = false) :
  (analyze s f).2 = []
  /\ truthy (talkingStartTime (analyze s f).1) = false
  /\ lastSpikeTime (analyze s f).1 = lastSpikeTime s
  /\ lastEventTime (analyze s f).1 = lastEventTime s.
Proof.
  assert (PrimFloat.ltb 50 (normalizedLevel (f_data f)) = false) as H50.
  { destruct (PrimFloat.ltb 50 _) eqn:H; [|done].
    apply ltb_50_20 in H. congruence. }
  unfold analyze, detect_talking, detect_spike. simpl.
  rewrite Hquiet, H50. by destruct (truthy (talkingStartTime s)) eqn:Ht.
Qed.

Lemma quiet_frame_sends_nothing_witness :
  PrimFloat.ltb 20 (normalizedLevel (f_data (uniform_frame 40 1700000001000)))
  = false
  /\ (analyze (mkState (Some 1700000000000) None ∅)
        (uniform_frame 40 1700000001000)).2 = []
  /\ truthy (talkingStartTime
               (analyze (mkState (Some 1700000000000) None ∅)
                  (uniform_frame 40 1700000001000)).1) = false.
Proof.
  assert (PrimFloat.ltb 20
            (normalizedLevel (f_data (uniform_frame 40 1700000001000)))
          = false) as H by (vm_compute; reflexivity).
  split; [exact H|].
  destruct (quiet_frame_sends_nothing (mkState (Some 1700000000000) None ∅)
              (uniform_frame 40 1700000001000) H) as (H1 & H2 & _).
  split; [exact H1|exact H2].
Defined.

(** Talking alerts and noise alerts share the event type and with it the
    throttle: when the clock moves less than 2000 ms between the two
    calls of [triggerEvent] of a frame, the frame sends at most one
    event, and a noise alert that follows a talking alert in the frame is
    lost, although the frame is recorded as the last spike. *)
Theorem one_alert_per_frame (s : State) (f : Frame)
    (Hclock : clock_now (f_spike f) - clock_now (f_talk f) < 2000) :
  (length (analyze s f).2 <= 1)%nat
  /\ (forall ev, ev ∈ (analyze s f).2 ->
        description ev = "Continuous talking detected" ->
        (analyze s f).2 = [ev]
        /\ (PrimFloat.ltb 50 (normalizedLevel (f_data f)) = true ->
            truthy (lastSpikeTime s) = false
            \/ 5000 < f_now f - default 0 (lastSpikeTime s) ->
            lastSpikeTime (analyze s f).1 = Some (f_now f))).
Proof.
  assert (forall m now stamp d c x ev,
            (triggerEvent m now stamp "voice_detection" d c x).2 = Some ev ->
            forall d' c' x',
              triggerEvent (triggerEvent m now stamp "voice_detection" d c x).1
                (clock_now (f_spike f)) (clock_stamp (f_spike f))
                "voice_detection" d' c' x'
              = ((triggerEvent m now stamp "voice_detection" d c x).1, None)
              \/ 2000 <= clock_now (f_spike f) - now) as Hthr.
  { intros m now stamp d c x ev Hsome d' c' x'.
    unfold triggerEvent in Hsome |- *. case_decide; [discriminate|]. simpl.
    rewrite lookup_insert_eq. simpl. case_decide; [by left|]. right. lia. }
  unfold analyze. simpl.
  set (level := normalizedLevel (f_data f)).
  unfold detect_talking.
  destruct (PrimFloat.ltb 20 level) eqn:H20; simpl.
  2:{ assert (PrimFloat.ltb 50 level = false) as H50.
      { destruct (PrimFloat.ltb 50 level) eqn:H; [|done].
        apply ltb_50_20 in H. congruence. }
      unfold detect_spike. rewrite H50.
      destruct (truthy (talkingStartTime s)); simpl; (split; [lia|]);
        intros ev Hin; by apply not_elem_of_nil in Hin. }
  assert (forall m,
    (length (detect_spike s f level m).2 <= 1)%nat
    /\ forall ev, ev ∈ (detect_spike s f level m).2 ->
         description ev <> "Continuous talking detected") as Hspike.
  { intros m. unfold detect_spike.
    destruct (PrimFloat.ltb 50 level); simpl.
    2:{ split; [lia|]. intros ev Hin. by apply not_elem_of_nil in Hin. }
    destruct (_ || _)%bool; simpl.
    2:{ split; [lia|]. intros ev Hin. by apply not_elem_of_nil in Hin. }
    split; [apply voice_triggerEvent_length|].
    intros ev Hin. unfold triggerEvent in Hin. case_decide; simpl in Hin.
    { by apply not_elem_of_nil in Hin. }
    apply list_elem_of_singleton in Hin. by subst ev. }
  destruct (truthy (talkingStartTime s)) eqn:Htr; simpl.
  2:{ split; [apply Hspike|]. intros ev Hin Hd.
      by destruct (proj2 (Hspike (lastEventTime s)) ev Hin). }
  case_decide as H3; simpl.
  2:{ split; [apply Hspike|]. intros ev Hin Hd.
      by destruct (proj2 (Hspike (lastEventTime s)) ev Hin). }
  match goal with
  | |- context [option_list (triggerEvent ?m ?n ?st ?e ?d ?c ?x).2] =>
      set (r := triggerEvent m n st e d c x);
      pose proof (Hthr m n st d c x) as Hr; fold r in Hr
  end.
  destruct (r.2) as [ev0|] eqn:Hr2; simpl.
  2:{ split; [apply Hspike|]. intros ev Hin Hd.
      by destruct (proj2 (Hspike r.1) ev Hin). }
  assert ((detect_spike s f level r.1).2 = []
          /\ (PrimFloat.ltb 50 level = true ->
              truthy (lastSpikeTime s) = false
              \/ 5000 < f_now f - default 0 (lastSpikeTime s) ->
              (detect_spike s f level r.1).1.1 = Some (f_now f))) as [Hnil Hlast].
  { unfold detect_spike. destruct (PrimFloat.ltb 50 level); [|done].
    destruct (truthy (lastSpikeTime s)); simpl.
    - case_bool_decide as H5; simpl.
      + destruct (Hr ev0 eq_refl "High background noise detected" 0.7%float
                    {[ "audio_level" := JNum level ]}) as [->|Hbad]; [done|lia].
      + split; [done|]. intros _ [?|?]; [done|lia].
    - destruct (Hr ev0 eq_refl "High background noise detected" 0.7%float
                  {[ "audio_level" := JNum level ]}) as [->|Hbad]; [done|lia]. }
  rewrite Hnil. simpl. split; [lia|].
  intros ev Hin Hd. apply list_elem_of_singleton in Hin. subst ev.
  split; [done|exact Hlast].
Qed.

Lemma one_alert_per_frame_witness :
  clock_now (f_spike (uniform_frame 200 1700000003400))
  - clock_now (f_talk (uniform_frame 200 1700000003400)) < 2000
  /\ (length (analyze (mkState (Some 1700000000000%Z) None ∅)
                (uniform_frame 200 1700000003400%Z)).2 <= 1)%nat
  /\ PrimFloat.ltb 50 (normalizedLevel (f_data (uniform_frame 200 1700000003400)))
     = true.
Proof.
  assert (clock_now (f_spike (uniform_frame 200 1700000003400))
          - clock_now (f_talk (uniform_frame 200 1700000003400)) < 2000) as H
    by (simpl; lia).
  split; [exact H|]. split.
  - exact (proj1 (one_alert_per_frame (mkState (Some 1700000000000) None ∅)
                    (uniform_frame 200 1700000003400) H)).
  - vm_compute. reflexivity.
Defined.

End VoiceMonitor.

(* ===================================================================== *)
(** * The object detector (ObjectDetector, lines 208-411 of
      VoiceMonitor.jsx) *)
(* ===================================================================== *)

Module ObjectDetector.

(** A value of the metadata object; [bbox] is an array of numbers. *)
Inductive JsValue : Type :=
  | JNum (x : float)
  | JStr (s : string)
  | JArr (xs : list float).

(** The object handed to [onEvent]. *)
Record Event : Type := mkEvent {
  event_type : string;
  description : string;
  metadata : gmap string JsValue
}.

(** A prediction of the COCO-SSD model. *)
Record Prediction : Type := mkPrediction {
  class : string;
  score : float;
  bbox : list float
}.

(** What the clock reads inside one call of [triggerSuspiciousEvent]. *)
Record Clock : Type := mkClock {
  clock_now : Z;
  clock_stamp : string
}.

(** Line 214. *)
Definition SUSPICIOUS_OBJECTS : list string :=
  ["cell phone"; "book"; "laptop"; "remote"; "mouse"].

(** [getEventType] (lines 333-344). *)
Definition getEventType (objectClass : string) : string :=
  if String.eqb objectClass "cell phone" then "suspicious_behavior"
  else if String.eqb objectClass "book" then "suspicious_behavior"
  else if String.eqb objectClass "laptop" then "suspicious_behavior"
  else "suspicious_behavior".

(** The test of the filter of lines 284-286. *)
Definition suspicious (pred : Prediction) : Prop :=
  class pred ∈ SUSPICIOUS_OBJECTS /\ PrimFloat.ltb 0.5 (score pred) = true.

#[global] Instance suspicious_dec pred : Decision (suspicious pred).
Proof. unfold suspicious. apply _. Defined.

(** [toFixed(0)] on the one number that the example below formats,
    0.9 * 100. *)
Definition demo_toFixed0 (x : float) : string := "90".

(** A mouse and a phone in one pass, a book half a second later and a
    phone again after three seconds. *)
Definition demo_passes : list (list (Prediction * Clock)) :=
  [[(mkPrediction "mouse" 0.9%float [], mkClock 1700000000000 "a");
    (mkPrediction "cell phone" 0.9%float [], mkClock 1700000000001 "b")];
   [(mkPrediction "book" 0.9%float [], mkClock 1700000000500 "c");
    (mkPrediction "person" 0.9%float [], mkClock 1700000000501 "d")];
   [(mkPrediction "cell phone" 0.4%float [], mkClock 1700000003000 "e");
    (mkPrediction "cell phone" 0.9%float [], mkClock 1700000003001 "f")]].

Section WithToFixed.

(** [x.toFixed(0)], the digits of a number rounded to an integer. *)
Variable toFixed0 : float -> string.

(** [triggerSuspiciousEvent] (lines 308-331): [lastEventTime] is
    [lastEventTimeRef.current]; the result is the updated object and the
    event passed to [onEvent], if any. *)
Definition triggerSuspiciousEvent (lastEventTime : gmap string Z) (clock : Clock)
    (detection : Prediction) : gmap string Z * option Event :=
  let eventType := getEventType (class detection) in
  let now := clock_now clock in
  let lastTime := default 0 (lastEventTime !! eventType) in
  if decide (now - lastTime < 3000) then (lastEventTime, None)
  else
    let description :=
      class detection +:+ " detected with "
      +:+ toFixed0 (score detection * 100)%float +:+ "% confidence" in
    (<[eventType := now]> lastEventTime,
     Some {| event_type := eventType;
             description := description;
             metadata :=
               {[ "object_class" := JStr (class detection);
                  "confidence_score" := JNum (score detection);
                  "bounding_box" := JArr (bbox detection);
                  "timestamp" := JStr (clock_stamp clock);
                  "source" := JStr "tensorflow_coco_ssd" ]} |}).

(** The state of a mounted detector and what it has sent: each event
    with the prediction and the reading of the clock it came from. *)
Abbreviation Sent := (list (Prediction * Clock * Event)).

(** The body of the [forEach] of lines 291-293. *)
Definition on_prediction (st : gmap string Z * Sent) (pc : Prediction * Clock)
    : gmap string Z * Sent :=
  let r := triggerSuspiciousEvent st.1 pc.2 pc.1 in
  (r.1, match r.2 with
        | Some ev => st.2 ++ [(pc, ev)]
        | None => st.2
        end).

(** One pass of [detect] (lines 279-293) over the predictions of the
    model, each with the reading of the clock at its turn. *)
Definition detect (st : gmap string Z * Sent)
    (predictions : list (Prediction * Clock)) : gmap string Z * Sent :=
  foldl on_prediction st (filter (fun pc => suspicious pc.1) predictions).

(** The passes of a detector whose ref holds [lastEventTime]: the empty
    object on a newly mounted detector. *)
Definition run_passes (lastEventTime : gmap string Z)
    (passes : list (list (Prediction * Clock))) : gmap string Z * Sent :=
  foldl detect (lastEventTime, []) passes.

(** The readings of the clock at the events sent. *)
Definition sent_times (out : Sent) : list Z :=
  (fun x => clock_now x.1.2) <$> out.

Lemma getEventType_constant objectClass :
  getEventType objectClass = "suspicious_behavior".
Proof. unfold getEventType. by repeat case_match. Qed.

Lemma triggerSuspiciousEvent_cases m clock p :
  triggerSuspiciousEvent m clock p = (m, None)
  \/ exists ev,
       triggerSuspiciousEvent m clock p
       = (<["suspicious_behavior" := clock_now clock]> m, Some ev)
       /\ 3000 <= clock_now clock - default 0 (m !! "suspicious_behavior")
       /\ event_type ev = "suspicious_behavior"
       /\ metadata ev !! "object_class" = Some (JStr (class p))
       /\ metadata ev !! "confidence_score" = Some (JNum (score p)).
Proof.
  unfold triggerSuspiciousEvent. rewrite getEventType_constant. simpl.
  case_decide; [by left|]. right. eexists (mkEvent _ _ _).
  split; [reflexivity|]. simpl. split; [lia|]. split; [done|].
  split; [apply lookup_insert_eq|].
  rewrite lookup_insert_ne by done. apply lookup_insert_eq.
Qed.

Lemma run_passes_flat passes st :
  foldl detect st passes
  = foldl on_prediction st
      (mjoin (filter (fun pc => suspicious pc.1) <$> passes)).
Proof.
  revert st. induction passes as [|pass passes IH]; intros st; [done|].
  simpl. rewrite foldl_app. apply IH.
Qed.

Lemma on_prediction_invariant m0 l :
  let st := foldl on_prediction (m0, []) l in
  st.1 !! "suspicious_behavior"
  = match last (sent_times st.2) with
    | Some t => Some t
    | None => m0 !! "suspicious_behavior"
    end
  /\ FaceFrames.spaced 3000 (sent_times st.2)
  /\ (forall pc ev, (pc, ev) ∈ st.2 ->
        pc ∈ l /\ event_type ev = "suspicious_behavior"
        /\ metadata ev !! "object_class" = Some (JStr (class pc.1))
        /\ metadata ev !! "confidence_score" = Some (JNum (score pc.1))).
Proof.
  induction l as [|pc l IH] using rev_ind.
  { split; [done|]. split; [apply FaceFrames.spaced_nil|].
    intros pc ev H. by apply not_elem_of_nil in H. }
  cbv zeta in IH |- *. rewrite foldl_snoc.
  destruct (foldl on_prediction (m0, []) l) as [m out].
  destruct IH as (Hlast & Hsp & Hfrom). simpl in Hlast, Hsp, Hfrom.
  unfold on_prediction. simpl.
  destruct (triggerSuspiciousEvent_cases m pc.2 pc.1)
    as [->|(ev & -> & Hthr & Hty & Hcl & Hsc)]; simpl.
  - split; [done|]. split; [done|].
    intros pc' ev' Hin. destruct (Hfrom pc' ev' Hin) as [Hl Hrest].
    split; [|done]. apply elem_of_app. by left.
  - unfold sent_times. rewrite fmap_app. simpl. split; [|split].
    + rewrite lookup_insert_eq. by rewrite last_snoc.
    + apply FaceFrames.spaced_snoc; [done|].
      intros a Ha. fold (sent_times out) in Ha.
      rewrite Hlast, Ha in Hthr. exact Hthr.
    + intros pc' ev' Hin. apply elem_of_app in Hin as [Hin|Hin].
      * destruct (Hfrom pc' ev' Hin) as [Hl Hrest].
        split; [|done]. apply elem_of_app. by left.
      * apply list_elem_of_singleton in Hin. injection Hin as -> ->.
        split; [|done]. apply elem_of_app. right.
        by apply list_elem_of_singleton.
Qed.

(** Over any passes of the object detector, whatever its ref held before
    and whatever the clock reads, two successive events are at least
    3000 ms apart, of whatever classes the objects are: every class is
    reported as suspicious_behavior and there is one throttle for all.
    Every event comes from a prediction of a pass whose class is one of
    the five suspicious ones and whose score is above 0.5, and carries
    that class and score. *)
Theorem object_events_share_one_throttle
    (lastEventTime : gmap string Z)
    (passes : list (list (Prediction * Clock))) :
  FaceFrames.spaced 3000 (sent_times (run_passes lastEventTime passes).2)
  /\ (forall p c ev, (p, c, ev) ∈ (run_passes lastEventTime passes).2 ->
        (exists pass, pass ∈ passes /\ (p, c) ∈ pass)
        /\ class p ∈ SUSPICIOUS_OBJECTS
        /\ PrimFloat.ltb 0.5 (score p) = true
        /\ event_type ev = "suspicious_behavior"
        /\ metadata ev !! "object_class" = Some (JStr (class p))
        /\ metadata ev !! "confidence_score" = Some (JNum (score p))).
Proof.
  unfold run_passes. rewrite run_passes_flat.
  destruct (on_prediction_invariant lastEventTime
              (mjoin (filter (fun pc => suspicious pc.1) <$> passes)))
    as (_ & Hsp & Hfrom).
  split; [exact Hsp|].
  intros p c ev Hin. destruct (Hfrom (p, c) ev Hin) as (Hl & Hty & Hcl & Hsc).
  apply list_elem_of_join in Hl as (l & Hpc & Hl).
  apply list_elem_of_fmap in Hl as (pass & -> & Hpass).
  apply list_elem_of_filter in Hpc as [[Hclass Hscore] Hpc].
  split; [by exists pass|]. done.
Qed.

End WithToFixed.

(** Of the suspicious objects of [demo_passes] the mouse and the last
    phone are reported; the first phone and the book are not. *)
Example demo_passes_reported :
  (fun x => (class x.1.1, clock_now x.1.2)) <$> (run_passes demo_toFixed0 ∅ demo_passes).2
  = [("mouse", 1700000000000); ("cell phone", 1700000003001)].
Proof. vm_compute. reflexivity. Qed.

End ObjectDetector.

(* ===================================================================== *)
(** * The exam page over time: the list of recent events, submission and
      the countdown (ExamSessionPage.jsx) *)
(* ===================================================================== *)

Module ExamSessionRuns.

Import ExamSession.

(** The page as [useState] first gives it (lines 22-25). *)
Definition initial_page : Page :=
  {| st_attemptId := None; st_proctoringActive := false; st_events := [] |}.

(** Events handled one after the other, each by a handler of some render
    and in its own surroundings; the effects of a run are applied before
    the next event is handled. *)
Definition handler_run (inputs : list (Closure * Env * Event)) (p : Page) : Page :=
  foldl (fun p '(c, env, event) =>
           apply_effects (handleProctoringEvent c env event) p)
    p inputs.

(** The entry of the list of recent events that an input leaves, if it
    leaves one: the handler has an attempt, the event is not of a type
    that ends the session, and the request to log it was answered. *)
Definition shown (i : Closure * Env * Event) : option (Event * string) :=
  let '(c, env, event) := i in
  if decide (truthy (attemptId c) <> None
             /\ (event_type event ∉ AUTO_TERMINATE)
             /\ request_ok env = true)
  then Some (event, clock env)
  else None.

Definition is_navigate (e : Effect) : bool :=
  match e with Navigate _ => true | _ => false end.

Definition is_submit_request (e : Effect) : bool :=
  match e with PostSubmit _ _ => true | _ => false end.

(** One tick of the interval of lines 142-150: the updater of
    [setTimeRemaining] on [prev], a whole number of seconds.  The
    [handleSubmit] it calls is the one of the render that registered the
    effect, [c]. *)
Definition tick (c : Closure) (env : Env) (confirmed : bool) (prev : Z)
    : Z * list Effect :=
  if decide (prev <= 1) then (0, handleSubmit c env confirmed)
  else (prev - 1, []).

(** The ticks of the interval, each with the surroundings of its
    [handleSubmit] and the answer to [window.confirm].  The effects of a
    tick are listed before those of the next; leaving the page unmounts
    it, which clears the interval (line 286). *)
Fixpoint run_ticks (c : Closure) (ticks : list (Env * bool)) (prev : Z)
    : Z * list Effect :=
  match ticks with
  | [] => (prev, [])
  | t :: rest =>
      let r := tick c t.1 t.2 prev in
      if existsb is_navigate r.2 then r
      else
        let r' := run_ticks c rest r.1 in
        (r'.1, r.2 ++ r'.2)
  end.

(** A submission that the student confirms and the server fails. *)
Definition failing_confirmed : Env * bool := (failed "t", true).

(** A submission that the student declines. *)
Definition declined : Env * bool := (answered "t", false).

Lemma apply_effects_app effs effs' p :
  apply_effects (effs ++ effs') p = apply_effects effs' (apply_effects effs p).
Proof. unfold apply_effects. by rewrite foldl_app. Qed.

(** What one handled event does to the list of recent events. *)
Lemma handle_st_events c env ev p :
  st_events (apply_effects (handleProctoringEvent c env ev) p)
  = match shown (c, env, ev) with
    | Some x => take 10 (x :: st_events p)
    | None => st_events p
    end.
Proof.
  unfold shown, handleProctoringEvent. simpl.
  assert (forall reason ty,
            st_events (apply_effects (autoTerminate c env reason ty) p)
            = st_events p) as Hterm.
  { intros reason ty. unfold autoTerminate.
    destruct (truthy (attemptId c)); [|done].
    destruct (proctoringActive c); [|done].
    by destruct (request_ok env). }
  destruct (truthy (attemptId c)) as [id|] eqn:Hid.
  2:{ rewrite decide_False; [done|]. by intros [H _]. }
  unfold AUTO_TERMINATE.
  case_decide as H1.
  { rewrite Hterm. rewrite decide_False; [done|].
    intros (_ & Hn & _). apply Hn. rewrite H1. set_solver. }
  case_decide as H2.
  { rewrite Hterm. rewrite decide_False; [done|].
    intros (_ & Hn & _). apply Hn. rewrite H2. set_solver. }
  case_decide as H3.
  { rewrite Hterm. rewrite decide_False; [done|].
    intros (_ & Hn & _). apply Hn. rewrite H3. set_solver. }
  destruct (request_ok env) eqn:Hok.
  - rewrite decide_True; [done|]. split; [done|]. split; [|done].
    intros Hin. repeat (apply elem_of_cons in Hin as [Hin|Hin]; [done|]).
    by apply not_elem_of_nil in Hin.
  - rewrite decide_False; [done|]. by intros (_ & _ & H).
Qed.

Lemma handler_run_st_events inputs p :
  (length (st_events p) <= 10)%nat ->
  st_events (handler_run inputs p)
  = take 10 (reverse (omap shown inputs) ++ st_events p).
Proof.
  revert p. induction inputs as [|[[c env] ev] inputs IH]; intros p Hp.
  { simpl. by rewrite take_ge. }
  change (st_events
            (handler_run inputs
               (apply_effects (handleProctoringEvent c env ev) p))
          = take 10 (reverse (omap shown ((c, env, ev) :: inputs))
                     ++ st_events p)).
  rewrite IH, handle_st_events.
  - cbn [omap list_omap]. destruct (shown (c, env, ev)) as [x|]; [|done].
    rewrite reverse_cons, <- app_assoc. cbn [app].
    rewrite !take_app. f_equal. rewrite take_take. f_equal. lia.
  - rewrite handle_st_events. destruct (shown _); [|done].
    rewrite length_take. lia.
Qed.

(** The list of recent events that the page shows holds, newest first,
    the last ten events whose log request was answered: events handled
    without an attempt, events of the three types that end the session
    and events whose request failed never appear in it, and it never
    holds more than ten entries. *)
Theorem recent_events_are_last_ten_logged
    (inputs : list (Closure * Env * Event)) :
  st_events (handler_run inputs initial_page)
  = take 10 (reverse (omap shown inputs))
  /\ (length (st_events (handler_run inputs initial_page)) <= 10)%nat.
Proof.
  rewrite handler_run_st_events by (simpl; lia).
  simpl. rewrite app_nil_r. split; [done|]. rewrite length_take. lia.
Qed.

(** When the request of a confirmed submission fails, the student stays
    on the exam page (nothing navigates away) with the attempt as it was
    and the proctoring flag switched off.  The listeners of the page are
    those of the render [c] that registered them, which holds the same
    attempt (the effect depends on [attemptId]) and saw proctoring
    active: a tab switch, a window blur or an event of several faces
    that they receive after the failed submission still posts the
    terminate request for the attempt and sends the student to /exams. *)
Theorem failed_submit_keeps_listeners_armed
    (p : Page) (c : Closure) (env : Env) (id : string)
    (Hid : truthy (st_attemptId p) = Some id)
    (Hsame : attemptId c = st_attemptId p)
    (Hseen : proctoringActive c = true)
    (Hfail : request_ok env = false) :
  let effs := handleSubmit (render p) env true in
  let p' := apply_effects effs p in
  filter is_submit_request effs = [PostSubmit id false]
  /\ existsb is_navigate effs = false
  /\ st_attemptId p' = st_attemptId p
  /\ st_proctoringActive p' = false
  /\ (forall env' ev, event_type ev ∈ AUTO_TERMINATE ->
        (exists reason,
            filter is_terminate_request (listeners_trace c [(env', ev)])
            = [PostTerminate id reason (event_type ev) (clock env')
                 (request_ok env')])
        /\ Navigate "/exams" ∈ listeners_trace c [(env', ev)]).
Proof.
  cbv zeta. split; [|split; [|split; [|split]]].
  - unfold handleSubmit. simpl. rewrite Hid, Hfail. simpl.
    by destruct (ws_connected env).
  - unfold handleSubmit. simpl. rewrite Hid, Hfail. simpl.
    by destruct (ws_connected env).
  - unfold handleSubmit. simpl. rewrite Hid, Hfail. simpl.
    by destruct (ws_connected env).
  - unfold handleSubmit. simpl. rewrite Hid, Hfail. simpl.
    by destruct (ws_connected env).
  - intros env' ev Hty. unfold listeners_trace. simpl. rewrite app_nil_r.
    destruct (handle_auto_terminate c env' ev Hty) as [reason ->].
    assert (truthy (attemptId c) = Some id) as Hc by (by rewrite Hsame).
    rewrite (autoTerminate_active c env' reason _ id Hc Hseen).
    split.
    + exists reason. by destruct (request_ok env').
    + destruct (request_ok env'); rewrite !elem_of_cons; tauto.
Qed.

Lemma failed_submit_keeps_listeners_armed_witness :
  truthy (st_attemptId (mkPage (Some "a1") true [])) = Some "a1"
  /\ attemptId (active "a1") = st_attemptId (mkPage (Some "a1") true [])
  /\ proctoringActive (active "a1") = true
  /\ request_ok (failed "t") = false
  /\ st_proctoringActive
       (apply_effects
          (handleSubmit (render (mkPage (Some "a1") true [])) (failed "t") true)
          (mkPage (Some "a1") true [])) = false
  /\ Navigate "/exams"
     ∈ listeners_trace (active "a1") [(answered "u", tab_switch_event)].
Proof.
  assert (truthy (st_attemptId (mkPage (Some "a1") true [])) = Some "a1") as Hid
    by reflexivity.
  assert (attemptId (active "a1") = st_attemptId (mkPage (Some "a1") true []))
    as Hsame by reflexivity.
  assert (proctoringActive (active "a1") = true) as Hseen by reflexivity.
  assert (request_ok (failed "t") = false) as Hfail by reflexivity.
  destruct (failed_submit_keeps_listeners_armed
              (mkPage (Some "a1") true []) (active "a1") (failed "t") "a1"
              Hid Hsame Hseen Hfail)
    as (_ & _ & _ & Hoff & Harmed).
  split; [exact Hid|]. split; [exact Hsame|]. split; [exact Hseen|].
  split; [exact Hfail|]. split; [exact Hoff|].
  apply Harmed. simpl. unfold AUTO_TERMINATE. rewrite !elem_of_cons. tauto.
Defined.

Lemma handleSubmit_retry c env confirmed id :
  truthy (attemptId c) = Some id ->
  confirmed = false \/ request_ok env = false ->
  existsb is_navigate (handleSubmit c env confirmed) = false
  /\ filter is_submit_request (handleSubmit c env confirmed)
     = if confirmed then [PostSubmit id false] else [].
Proof.
  intros Hid Hor. unfold handleSubmit. rewrite Hid.
  destruct confirmed; simpl; [|done].
  destruct Hor as [Hc|Hok]; [done|]. rewrite Hok.
  by destruct (ws_connected env).
Qed.

(** The countdown goes down by one a tick to 0 and stays there.  When the
    time has run out nothing is submitted without the student's
    confirmation: as long as every submission is declined or fails, the
    page is not left, and every tick from the one that takes the time to
    0 on calls [handleSubmit] again, each confirmed one posting one more
    submit request. *)
Theorem timeout_retries_until_submitted
    (c : Closure) (id : string) (ticks : list (Env * bool)) (T : Z)
    (Hid : truthy (attemptId c) = Some id)
    (HT : 0 <= T)
    (Hstay : Forall (fun t => t.2 = false \/ request_ok t.1 = false) ticks) :
  (run_ticks c ticks T).1 = Z.max 0 (T - Z.of_nat (length ticks))
  /\ existsb is_navigate (run_ticks c ticks T).2 = false
  /\ filter is_submit_request (run_ticks c ticks T).2
     = (fun _ => PostSubmit id false)
       <$> filter (fun t => t.2 = true) (drop (Z.to_nat (T - 1)) ticks).
Proof.
  revert T HT. induction Hstay as [|t ticks Ht Hstay IH]; intros T HT.
  { simpl. rewrite drop_nil. split; [lia|done]. }
  cbn [run_ticks]. unfold tick. case_decide as H1; cbn [fst snd].
  - destruct (handleSubmit_retry c t.1 t.2 id Hid Ht) as [Hnav Hsub].
    rewrite Hnav. cbn [fst snd].
    destruct (IH 0 ltac:(lia)) as (Htime & Hnav' & Hsub').
    replace (Z.to_nat (T - 1)) with 0%nat by lia.
    replace (Z.to_nat (0 - 1)) with 0%nat in Hsub' by lia.
    rewrite !drop_0 in *.
    split; [rewrite Htime; simpl length; lia|].
    split; [rewrite existsb_app, Hnav, Hnav'; done|].
    rewrite filter_app, Hsub, Hsub', filter_cons.
    destruct t as [env conf]. simpl. destruct conf.
    + by rewrite decide_True.
    + by rewrite decide_False.
  - simpl existsb. cbn iota.
    destruct (IH (T - 1) ltac:(lia)) as (Htime & Hnav' & Hsub').
    replace (Z.to_nat (T - 1)) with (S (Z.to_nat (T - 1 - 1))) by lia.
    simpl. split; [rewrite Htime; lia|]. split; [done|]. exact Hsub'.
Qed.

Lemma timeout_retries_until_submitted_witness :
  truthy (attemptId (active "a1")) = Some "a1"
  /\ 0 <= 2
  /\ Forall (fun t : Env * bool => t.2 = false \/ request_ok t.1 = false)
       [declined; declined; failing_confirmed; declined; failing_confirmed]
  /\ (run_ticks (active "a1")
        [declined; declined; failing_confirmed; declined; failing_confirmed]
        2).1 = 0
  /\ filter is_submit_request
       (run_ticks (active "a1")
          [declined; declined; failing_confirmed; declined; failing_confirmed]
          2).2
     = [PostSubmit "a1" false; PostSubmit "a1" false].
Proof.
  assert (truthy (attemptId (active "a1")) = Some "a1") as Hid by reflexivity.
  assert (0 <= 2) as HT by lia.
  assert (Forall (fun t : Env * bool => t.2 = false \/ request_ok t.1 = false)
            [declined; declined; failing_confirmed; declined; failing_confirmed])
    as Hstay.
  { repeat match goal with |- Forall _ _ => constructor end; simpl; auto. }
  destruct (timeout_retries_until_submitted (active "a1") "a1" _ 2 Hid HT Hstay)
    as (Htime & _ & Hsub).
  split; [exact Hid|]. split; [exact HT|]. split; [exact Hstay|].
  split; [exact Htime|exact Hsub].
Defined.

End ExamSessionRuns.

(* ===================================================================== *)
(** * The status of an exam in the list of exams (ExamsListPage.jsx) *)
(* ===================================================================== *)

Module ExamsList.

(** The fields of an exam that [getExamStatus] reads.  [start_time] and
    [end_time] are the time values of [new Date(exam.start_time)] and
    [new Date(exam.end_time)], [None] for an invalid date; [can_start]
    is [Some b] for the boolean [b] and [None] for anything else. *)
Record Exam : Type := mkExam {
  attempt_status : option string;
  attempt_id : option string;
  start_time : option Z;
  end_time : option Z;
  can_start : option bool
}.

(** The object that [getExamStatus] returns; a property it does not set
    reads as false (as [None] for [attemptId]). *)
Record Status : Type := mkStatus {
  label : string;
  color : string;
  canStart : bool;
  isCompleted : bool;
  isInProgress : bool;
  attemptId : option string
}.

(** [a < b] and [a <= b] on dates: false when either is invalid. *)
Definition date_lt (a b : option Z) : bool :=
  match a, b with
  | Some a, Some b => bool_decide (a < b)
  | _, _ => false
  end.

Definition date_le (a b : option Z) : bool :=
  match a, b with
  | Some a, Some b => bool_decide (a <= b)
  | _, _ => false
  end.

(** [getExamStatus] (ExamsListPage.jsx, lines 27-51); [now] is the time
    value of [new Date()]. *)
Definition getExamStatus (now : Z) (exam : Exam) : Status :=
  if bool_decide (attempt_status exam = Some "completed"
                  \/ attempt_status exam = Some "cancelled") then
    mkStatus "Completed" "bg-green-100 text-green-800" false true false None
  else if bool_decide (attempt_status exam = Some "terminated") then
    mkStatus "Terminated" "bg-red-100 text-red-800" false true false None
  else if bool_decide (attempt_status exam = Some "in_progress") then
    mkStatus "In Progress" "bg-yellow-100 text-yellow-800" false false true
      (attempt_id exam)
  else
    let start := start_time exam in
    let end_ := end_time exam in
    if date_lt (Some now) start then
      mkStatus "Upcoming" "bg-blue-100 text-blue-800" false false false None
    else if (date_le start (Some now) && date_le (Some now) end_)%bool then
      mkStatus "Active" "bg-green-100 text-green-800"
        (negb (bool_decide (can_start exam = Some false))) false false None
    else
      mkStatus "Ended" "bg-gray-100 text-gray-800" false false false None.

(** An exam that is open at time 1500 and whose attempt was submitted. *)
Definition open_submitted_exam : Exam :=
  mkExam (Some "submitted") (Some "a1") (Some 1000) (Some 2000) None.

(** The list offers to start an exam exactly when the attempt status is
    none of completed, cancelled, terminated and in_progress, both dates
    are valid with the current time between them (bounds included), and
    [can_start] is not [false].  Of the four statuses of MANUAL_SETUP.sql
    each is decided without a look at the dates; the statuses submitted,
    auto_submitted and abandoned of schema.sql are not recognised: such
    an attempt is marked neither completed nor in progress and the exam
    is labelled by its dates alone. *)
Theorem exam_can_start_iff (now : Z) (exam : Exam) :
  (canStart (getExamStatus now exam) = true
   <-> (attempt_status exam
          ∉ (Some <$> ["completed"; "cancelled"; "terminated"; "in_progress"]))
       /\ (exists s e, start_time exam = Some s /\ end_time exam = Some e
                       /\ s <= now <= e)
       /\ can_start exam <> Some false)
  /\ (forall l, l ∈ Schema.manual_setup_attempt_status_labels ->
        attempt_status exam = Some l ->
        canStart (getExamStatus now exam) = false
        /\ (isCompleted (getExamStatus now exam)
            || isInProgress (getExamStatus now exam))%bool = true)
  /\ (forall l, l ∈ Schema.attempt_status_labels -> l <> "in_progress" ->
        attempt_status exam = Some l ->
        isCompleted (getExamStatus now exam) = false
        /\ isInProgress (getExamStatus now exam) = false
        /\ label (getExamStatus now exam) ∈ ["Upcoming"; "Active"; "Ended"]).
Proof.
  split; [|split].
  - unfold getExamStatus.
    case_bool_decide as H1.
    { simpl. split; [done|]. intros (Hn & _). exfalso. apply Hn.
      destruct H1 as [-> | ->]; set_solver. }
    case_bool_decide as H2.
    { simpl. split; [done|]. intros (Hn & _). exfalso. apply Hn.
      rewrite H2. set_solver. }
    case_bool_decide as H3.
    { simpl. split; [done|]. intros (Hn & _). exfalso. apply Hn.
      rewrite H3. set_solver. }
    assert (attempt_status exam
              ∉ (Some <$> ["completed"; "cancelled"; "terminated"; "in_progress"]))
      as Hnot.
    { simpl. intros Hin.
      repeat (apply elem_of_cons in Hin as [Hin|Hin]; [tauto|]).
      by apply not_elem_of_nil in Hin. }
    cbv zeta. unfold date_lt, date_le.
    destruct (start_time exam) as [s|], (end_time exam) as [e|]; simpl.
    + case_bool_decide as Hs; simpl.
      { split; [done|]. intros (_ & (s' & e' & [= <-] & [= <-] & Hb) & _). lia. }
      case_bool_decide as Hs'; [|lia]. simpl.
      case_bool_decide as He; simpl.
      * case_bool_decide as Hc; simpl.
        -- split; [done|]. by intros (_ & _ & Hcs).
        -- split; [|done]. intros _. split; [done|]. split; [|done].
           exists s, e. split; [done|]. split; [done|]. lia.
      * split; [done|]. intros (_ & (s' & e' & [= <-] & [= <-] & Hb) & _). lia.
    + case_bool_decide as Hs; simpl.
      { split; [done|]. by intros (_ & (s' & e' & _ & ? & _) & _). }
      rewrite andb_false_r. simpl.
      split; [done|]. by intros (_ & (s' & e' & _ & ? & _) & _).
    + split; [done|]. by intros (_ & (s' & e' & ? & _) & _).
    + split; [done|]. by intros (_ & (s' & e' & ? & _) & _).
  - intros l Hl Hst. unfold getExamStatus. rewrite Hst.
    unfold Schema.manual_setup_attempt_status_labels in Hl.
    repeat (apply elem_of_cons in Hl as [->|Hl]; [by vm_compute|]).
    by apply not_elem_of_nil in Hl.
  - intros l Hl Hne Hst. unfold getExamStatus. rewrite Hst.
    unfold Schema.attempt_status_labels in Hl.
    apply elem_of_cons in Hl as [->|Hl]; [done|].
    assert (forall st, (label st = "Upcoming" \/ label st = "Active"
                        \/ label st = "Ended") ->
                       label st ∈ ["Upcoming"; "Active"; "Ended"]) as Hlab.
    { intros st H. rewrite !elem_of_cons. tauto. }
    repeat (apply elem_of_cons in Hl as [->|Hl];
            [ rewrite !bool_decide_eq_false_2 by (intros H; intuition congruence);
              cbv zeta;
              destruct (date_lt _ _); [by (repeat split; [..|apply Hlab]; auto)|];
              destruct (_ && _)%bool; by (repeat split; [..|apply Hlab]; auto) |]).
    by apply not_elem_of_nil in Hl.
Qed.

(** An exam whose attempt is stored as submitted is offered for a new
    start while its window is open. *)
Example submitted_exam_offered_again :
  canStart (getExamStatus 1500 open_submitted_exam) = true
  /\ label (getExamStatus 1500 open_submitted_exam) = "Active"
  /\ isCompleted (getExamStatus 1500 open_submitted_exam) = false.
Proof. by vm_compute. Qed.

End ExamsList.

(* ===================================================================== *)
(** * From a camera frame to the end of the session *)
(* ===================================================================== *)

Module FacePolicy.

Import ExamSession.

(** The page passes [handleProctoringEvent] to the face monitor as
    [onEvent] (ExamSessionPage.jsx, lines 633-635): the event that
    [onFaceDetectionResults] triggers, if any, is handled by the handler
    [c] of some render of the page. *)
Definition on_face_results (c : Closure) (env : Env)
    (lastEventTime : gmap string Z) (now : Z) (stamp : string) (faces : nat)
    : gmap string Z * list Effect :=
  let r := FaceMonitor.onFaceDetectionResults lastEventTime now stamp faces in
  (r.1, match r.2 with
        | Some event => handleProctoringEvent c env event
        | None => []
        end).

(** With an attempt and proctoring active, a camera frame makes the page
    request the termination of the attempt exactly when it shows more
    than one face and no multiple_faces event was sent in the 2000 ms
    before; it makes the page log an event exactly when it shows no face
    and no no_face event was sent in the 2000 ms before.  A frame with
    one face does nothing, and an absent face never ends the session. *)
Theorem several_faces_end_session
    (c : Closure) (id : string) (env : Env) (lastEventTime : gmap string Z)
    (now : Z) (stamp : string) (faces : nat)
    (Hid : truthy (attemptId c) = Some id)
    (Hactive : proctoringActive c = true) :
  let effs := (on_face_results c env lastEventTime now stamp faces).2 in
  (existsb is_terminate_request effs = true
   <-> (1 < faces)%nat
       /\ 2000 <= now - default 0 (lastEventTime !! "multiple_faces"))
  /\ (existsb is_log_request effs = true
      <-> faces = 0%nat
          /\ 2000 <= now - default 0 (lastEventTime !! "no_face"))
  /\ (faces = 1%nat -> effs = []).
Proof.
  cbv zeta. unfold on_face_results, FaceMonitor.onFaceDetectionResults,
    FaceMonitor.triggerEvent, FaceMonitor.EVENT_THROTTLE.
  destruct faces as [|[|n]]; simpl.
  - case_decide as Hthr; simpl.
    + split; [split; [done|lia]|]. split; [|done]. split; [done|lia].
    + unfold handleProctoringEvent. rewrite Hid. simpl.
      destruct (request_ok env); simpl.
      * split; [split; [done|lia]|]. split; [|done]. split; [|done].
        intros _. split; [done|lia].
      * split; [split; [done|lia]|]. split; [|done]. split; [|done].
        intros _. split; [done|lia].
  - split; [split; [done|lia]|]. split; [|done]. split; [done|]. by intros [? _].
  - case_decide as Hthr; simpl.
    + split; [split; [done|lia]|]. split; [|done]. split; [done|by intros [? _]].
    + unfold handleProctoringEvent, autoTerminate. rewrite Hid, Hactive. simpl.
      destruct (request_ok env); simpl.
      * split; [split; [intros _; split; lia|done]|].
        split; [|done]. split; [done|by intros [? _]].
      * split; [split; [intros _; split; lia|done]|].
        split; [|done]. split; [done|by intros [? _]].
Qed.

Lemma several_faces_end_session_witness :
  truthy (attemptId (active "a1")) = Some "a1"
  /\ proctoringActive (active "a1") = true
  /\ existsb is_terminate_request
       (on_face_results (active "a1") (answered "t") ∅ 1700000000000 "s" 2).2
     = true.
Proof.
  assert (truthy (attemptId (active "a1")) = Some "a1") as Hid by reflexivity.
  assert (proctoringActive (active "a1") = true) as Hactive by reflexivity.
  split; [exact Hid|]. split; [exact Hactive|].
  apply (several_faces_end_session (active "a1") "a1" (answered "t") ∅
           1700000000000 "s" 2 Hid Hactive).
  split; [lia|]. rewrite lookup_empty. simpl. lia.
Defined.

End FacePolicy.

(* ===================================================================== *)
(** * Starting the exam (ExamSessionPage.jsx, lines 46-136 and 302-321) *)
(* ===================================================================== *)

Module ExamStart.

Import ExamSession.

(** The values of [cameraPermission] and [micPermission] other than
    [null]. *)
Inductive Permission : Type :=
  | granted
  | denied.

#[global] Instance Permission_eq_dec : EqDecision Permission.
Proof. solve_decision. Defined.

(** The state of the setup phase that [handleStartExam] reads: the two
    permissions, [null] as [None], and whether [setupStream] holds a
    stream. *)
Record Setup : Type := mkSetup {
  cameraPermission : option Permission;
  micPermission : option Permission;
  setupStream : bool
}.

(** [requestPermissions] (lines 46-78) as the permissions it leaves:
    [both], [video] and [audio] tell whether [getUserMedia] resolves for
    camera and microphone together, for the camera alone and for the
    microphone alone. *)
Definition requestPermissions (both video audio : bool)
    : option Permission * option Permission :=
  if both then (Some granted, Some granted)
  else (Some (if video then granted else denied),
        Some (if audio then granted else denied)).

(** The attempt that [examService.startAttempt] resolves to. *)
Record AttemptData : Type := mkAttemptData {
  attempt_data_id : string;
  exam_title : string;
  duration_minutes : Z
}.

(** The outcome of [examService.startAttempt]: the request fails, or it
    is answered, with an attempt in the answer or without one (then
    [attemptData] is [undefined] and reading [attemptData.id] throws). *)
Inductive StartOutcome : Type :=
  | Rejected
  | Resolved (attemptData : option AttemptData).

(** What one run of [handleStartExam] meets outside: whether the request
    for fullscreen is granted, the outcome of the start request, whether
    [new WebSocket] returns a socket or throws, and the text of the error
    that is caught, if one is. *)
Record StartEnv : Type := mkStartEnv {
  fullscreen_ok : bool;
  started : StartOutcome;
  socket_opens : bool;
  start_error : string
}.

(** What [handleStartExam] does, in the order in which it does it.
    [ConnectWebSocket id c] is the call of [initializeProctoringWebSocket]
    (lines 302-321) that opens the socket: the callback it registers for
    messages calls the [handleProctoringEvent] of the render [c] that
    the running [handleStartExam] belongs to.  [ConnectWebSocketThrows]
    is the call in which [new WebSocket] throws. *)
Inductive StartEffect : Type :=
  | StartAlert (msg : string)
  | StopSetupStream
  | SetSetupStream_null
  | SetSetupPhase (b : bool)
  | SetLoading (b : bool)
  | RequestFullscreen (resolved : bool)
  | ConsoleWarn (msg : string)
  | PostStart (examId : string) (resolved : bool)
  | SetAttemptId (id : string)
  | SetExam (examId title : string) (duration_minutes : Z)
  | StartProctoring
  | SetTimeRemaining (seconds : Z)
  | ConnectWebSocket (id : string) (c : Closure)
  | ConnectWebSocketThrows (id : string)
  | StartConsoleError (msg : string)
  | StartNavigate (path : string).

(** What the [catch] of lines 129-132 does. *)
Definition start_failed (env : StartEnv) : list StartEffect :=
  [StartConsoleError "Failed to start exam:";
   StartAlert ("Failed to start exam: " +:+ start_error env);
   StartNavigate "/exams"].

(** [handleStartExam] (lines 80-136), run by the handlers of render
    [c].  The [try] of lines 95-128 holds the start request, the reading
    of the attempt and the opening of the socket: whichever of them
    throws, the [catch] runs, and the [finally] after it. *)
Definition handleStartExam (c : Closure) (s : Setup) (examId : string)
    (env : StartEnv) : list StartEffect :=
  if bool_decide (cameraPermission s <> Some granted
                  \/ micPermission s <> Some granted) then
    [StartAlert "Please grant both camera and microphone permissions to start the exam."]
  else
    (if setupStream s then [StopSetupStream; SetSetupStream_null] else [])
    ++ [SetSetupPhase false; SetLoading true]
    ++ (if fullscreen_ok env then [RequestFullscreen true]
        else [RequestFullscreen false;
              ConsoleWarn "Fullscreen request failed:";
              StartAlert "Warning: Fullscreen mode is recommended for exams. Some features may not work properly."])
    ++ match started env with
       | Resolved (Some attemptData) =>
           [PostStart examId true;
            SetAttemptId (attempt_data_id attemptData);
            SetExam examId (exam_title attemptData) (duration_minutes attemptData);
            StartProctoring;
            SetTimeRemaining (duration_minutes attemptData * 60)]
           ++ (if socket_opens env then
                 [ConnectWebSocket (attempt_data_id attemptData) c]
               else
                 ConnectWebSocketThrows (attempt_data_id attemptData)
                 :: start_failed env)
       | Resolved None => PostStart examId true :: start_failed env
       | Rejected => PostStart examId false :: start_failed env
       end
    ++ [SetLoading false].

(** The callback for messages of lines 305-316: [anomalies] is
    [data.anomalies], [None] when the message has none, each anomaly with
    the surroundings in which it is handled. *)
Definition on_ws_message (c : Closure) (anomalies : option (list (Env * string)))
    : list Effect :=
  match anomalies with
  | Some l =>
      concat
        (map (fun a =>
                handleProctoringEvent c a.1
                  (FaceMonitor.mkEvent a.2 ("Detected " +:+ a.2)
                     {[ "source" := FaceMonitor.JStr "ai_backend";
                        "timestamp" := FaceMonitor.JStr (clock a.1) ]}))
           l)
  | None => []
  end.

Definition is_start_request (e : StartEffect) : bool :=
  match e with PostStart _ _ => true | _ => false end.

Definition is_start_proctoring (e : StartEffect) : bool :=
  match e with StartProctoring | ConnectWebSocket _ _ => true | _ => false end.

Definition is_start_navigate (e : StartEffect) : bool :=
  match e with StartNavigate _ => true | _ => false end.

(** The setup after [requestPermissions], with the stream it stored. *)
Definition setup_after (both video audio : bool) : Setup :=
  let r := requestPermissions both video audio in
  mkSetup r.1 r.2 (both || video).

(** The handlers of the page before any attempt was started (lines
    22-25). *)
Definition before_start : Closure :=
  {| attemptId := None; proctoringActive := false |}.

(** A start that is granted fullscreen, an attempt of 30 minutes and its
    socket. *)
Definition start_ok : StartEnv :=
  mkStartEnv true (Resolved (Some (mkAttemptData "a1" "Algebra" 30))) true "".

(** The exam is started only with both permissions: after
    [requestPermissions], [handleStartExam] posts the start request
    exactly when camera and microphone were granted together or each on
    its own; without that it only shows an alert.  A refused fullscreen
    does not stop the start.  When the request is answered with an
    attempt and the socket opens, proctoring is switched on, the socket
    is opened for the new attempt, the countdown is set to the minutes of
    the attempt times 60, and the page is not left.  When the socket
    cannot be opened, the attempt id is set and proctoring switched on,
    and yet the student is told that the start failed and is sent to
    /exams.  When the request fails, or is answered without an attempt,
    the student is sent to /exams and neither proctoring nor the socket
    is started.  Whenever the request was posted, the last thing done is
    switching the loading state off. *)
Theorem start_needs_both_permissions
    (c : Closure) (both video audio : bool) (examId : string) (env : StartEnv) :
  let effs := handleStartExam c (setup_after both video audio) examId env in
  (existsb is_start_request effs = (both || video && audio)%bool)
  /\ (existsb is_start_request effs = false -> exists msg, effs = [StartAlert msg])
  /\ (existsb is_start_request effs = true ->
        last effs = Some (SetLoading false)
        /\ (forall a, started env = Resolved (Some a) ->
              socket_opens env = true ->
              filter is_start_proctoring effs
              = [StartProctoring; ConnectWebSocket (attempt_data_id a) c]
              /\ SetTimeRemaining (duration_minutes a * 60) ∈ effs
              /\ existsb is_start_navigate effs = false)
        /\ (forall a, started env = Resolved (Some a) ->
              socket_opens env = false ->
              filter is_start_proctoring effs = [StartProctoring]
              /\ SetAttemptId (attempt_data_id a) ∈ effs
              /\ StartAlert ("Failed to start exam: " +:+ start_error env) ∈ effs
              /\ StartNavigate "/exams" ∈ effs)
        /\ (started env = Rejected \/ started env = Resolved None ->
              StartAlert ("Failed to start exam: " +:+ start_error env) ∈ effs
              /\ StartNavigate "/exams" ∈ effs
              /\ existsb is_start_proctoring effs = false)).
Proof.
  cbv zeta. unfold handleStartExam, setup_after, requestPermissions, start_failed.
  destruct both, video, audio; simpl;
    try (split; [reflexivity|]; split; [eauto|]; intros; discriminate).
  all: destruct (fullscreen_ok env), (started env) as [|[a|]],
         (socket_opens env); simpl.
  all: split; [reflexivity|]; split; [intros; discriminate|]; intros _.
  all: split; [reflexivity|].
  all: split;
    [intros a' Ha' Hs;
     first [discriminate Ha' | discriminate Hs
           | (injection Ha' as <-; split; [reflexivity|];
              split; [|reflexivity]; rewrite !elem_of_cons; tauto)]|].
  all: split;
    [intros a' Ha' Hs;
     first [discriminate Ha' | discriminate Hs
           | (injection Ha' as <-; split; [reflexivity|];
              rewrite !elem_of_cons; tauto)]|].
  all: intros [Hr|Hr];
    first [discriminate Hr
          | (split; [rewrite !elem_of_cons; tauto|];
             split; [rewrite !elem_of_cons; tauto|reflexivity])].
Qed.

(** The socket that [handleStartExam] opens passes the anomalies of the
    backend to the handler of the render that ran [handleStartExam].
    That render has no attempt id on a first start (only
    [handleStartExam] sets one), and then every anomaly the backend
    reports over the socket is dropped: nothing is logged and the session
    is not ended, whatever the anomaly. *)
Theorem backend_anomalies_are_dropped
    (c : Closure) (s : Setup) (examId : string) (env : StartEnv)
    (id : string) (handler : Closure)
    (Hnone : truthy (attemptId c) = None)
    (Hws : ConnectWebSocket id handler ∈ handleStartExam c s examId env) :
  handler = c
  /\ forall anomalies, on_ws_message handler anomalies = [].
Proof.
  assert (handler = c) as ->.
  { unfold handleStartExam, start_failed in Hws. case_bool_decide.
    { apply list_elem_of_singleton in Hws. discriminate. }
    destruct (setupStream s), (fullscreen_ok env), (started env) as [|[a|]],
      (socket_opens env); simpl in Hws.
    all: repeat (apply elem_of_cons in Hws as [Hws|Hws];
                 [try discriminate; by injection Hws|]).
    all: by apply not_elem_of_nil in Hws. }
  split; [reflexivity|].
  intros [l|]; [|reflexivity]. unfold on_ws_message.
  induction l as [|a l IH]; [reflexivity|].
  simpl. unfold handleProctoringEvent at 1. rewrite Hnone. exact IH.
Qed.

Lemma backend_anomalies_are_dropped_witness :
  truthy (attemptId before_start) = None
  /\ ConnectWebSocket "a1" before_start
       ∈ handleStartExam before_start (setup_after true true true) "e1" start_ok
  /\ on_ws_message before_start
       (Some [(answered "t", "multiple_faces"); (answered "u", "phone_detected")])
     = [].
Proof.
  assert (truthy (attemptId before_start) = None) as Hnone by reflexivity.
  assert (ConnectWebSocket "a1" before_start
            ∈ handleStartExam before_start (setup_after true true true) "e1"
                start_ok) as Hws.
  { unfold handleStartExam.
    rewrite bool_decide_eq_false_2 by (simpl; intros [?|?]; congruence).
    simpl. rewrite !elem_of_cons. tauto. }
  split; [exact Hnone|]. split; [exact Hws|].
  apply (backend_anomalies_are_dropped before_start (setup_after true true true)
           "e1" start_ok "a1" before_start Hnone Hws).
Defined.


End ExamStart.
